(** * RodeysTweaksGamingOptimizer: settings registry, optimisation policy
      and settings-file codec

    Shallow embedding of [GameOptimizer] and [SettingsManager] from
    [src/RodeysTweaksGamingOptimizer.cpp], followed by the properties of
    the registry (bounds, clamping, frame conditions) and of the
    [name=value] text codec (round trip, tolerance of malformed lines).

    Conventions.
    - A C++ [int] is a [Z]; [Int.in_range] says that it fits in 32 bits.
      The registry code only divides by the constant 10 and selects with
      [std::min]/[std::max], so no operation can leave the range
      (lemma [clamp_in_range]) and no wrap-around has to be written out.
    - [std::string] is [string]; a [char] is an [ascii].
    - [std::vector<Setting>] is [list Setting]; a range-for loop that
      assigns through [auto&] is a [map].
    - Console output ([std::cout], [std::cerr]) is not part of the model. *)

From Stdlib Require Import ZArith List String Ascii Bool Lia.
From Stdlib Require Import Decimal DecimalString DecimalPos DecimalZ.
From Stdlib Require Import Sorted OrderedTypeEx.
Import ListNotations.

Local Open Scope string_scope.
Local Open Scope list_scope.
Local Open Scope Z_scope.

(** ** Machine integers and the two [<algorithm>] selectors *)

Module Int.

Definition INT_MIN : Z := -2147483648.
Definition INT_MAX : Z := 2147483647.

Definition in_range (z : Z) : bool := (INT_MIN <=? z) && (z <=? INT_MAX).

(** [std::min(a, b)] is [(b < a) ? b : a]. *)
Definition std_min (a b : Z) : Z := if b <? a then b else a.

(** [std::max(a, b)] is [(a < b) ? b : a]. *)
Definition std_max (a b : Z) : Z := if a <? b then b else a.

(** [a / b] on [int]: the quotient is truncated toward zero. *)
Definition div (a b : Z) : Z := Z.quot a b.

End Int.

(** ** [class GameOptimizer] *)

Module GameOptimizer.

Record Setting : Type := mkSetting {
  name : string;
  value : Z;
  minValue : Z;
  maxValue : Z
}.

(** The assignment [setting.value = v] on one element. *)
Definition set_value (s : Setting) (v : Z) : Setting :=
  mkSetting (name s) v (minValue s) (maxValue s).

(** The private member [settings]. *)
Definition registry : Type := list Setting.

(** A freshly constructed optimizer owns an empty vector. *)
Definition empty : registry := [].

(** [settings.emplace_back(name, defaultValue, minValue, maxValue)] *)
Definition addSetting (n : string) (defaultValue minV maxV : Z)
    (settings : registry) : registry :=
  settings ++ [mkSetting n defaultValue minV maxV].

(** [for (auto& setting : settings)
       setting.value = std::min(setting.maxValue,
                         std::max(setting.minValue, targetPerformance / 10));] *)
Definition optimizeSettings (targetPerformance : Z)
    (settings : registry) : registry :=
  map (fun setting =>
         set_value setting
           (Int.std_min (maxValue setting)
              (Int.std_max (minValue setting)
                 (Int.div targetPerformance 10))))
      settings.

(** [for (auto& setting : settings)
       if (setting.name == name)
         setting.value = std::min(setting.maxValue,
                           std::max(setting.minValue, value));]
    The loop has no [break]: it visits every element. *)
Definition updateSetting (n : string) (v : Z)
    (settings : registry) : registry :=
  map (fun setting =>
         if String.eqb (name setting) n
         then set_value setting
                (Int.std_min (maxValue setting)
                   (Int.std_max (minValue setting) v))
         else setting)
      settings.

(** [getSettings] returns a copy of the vector. *)
Definition getSettings (settings : registry) : registry := settings.

End GameOptimizer.

Import GameOptimizer.

(** ** Stream operations used by [SettingsManager] *)

Module Stream.

Definition newline : ascii := ascii_of_nat 10.

(** Characters up to the first [delim] (which is consumed and dropped),
    or up to the end of the input; second component: what is left. *)
Fixpoint split_at (delim : ascii) (s : string) : string * string :=
  match s with
  | EmptyString => (EmptyString, EmptyString)
  | String c rest =>
      if Ascii.eqb c delim then (EmptyString, rest)
      else let (l, r) := split_at delim rest in (String c l, r)
  end.

(** [std::getline(is, str, delim)] tested as a condition: it fails
    exactly when not a single character (delimiter included) could be
    extracted, that is on exhausted input.  When the delimiter is not
    found the stream is left at end of file, which for the one reader
    that follows ([operator>>]) is the same as an empty remainder. *)
Definition getline (delim : ascii) (s : string) : option (string * string) :=
  match s with
  | EmptyString => None
  | String _ _ => Some (split_at delim s)
  end.

(** [isspace] in the classic locale: space and [\t \n \v \f \r]. *)
Definition is_space (c : ascii) : bool :=
  let n := nat_of_ascii c in
  Nat.eqb n 32 || (Nat.leb 9 n && Nat.leb n 13).

Fixpoint skip_ws (s : string) : string :=
  match s with
  | EmptyString => EmptyString
  | String c rest => if is_space c then skip_ws rest else s
  end.

(** The value of a decimal digit, [c - '0'] for [c] between ['0'] and
    ['9'] (character codes 48 to 57). *)
Definition digit_of (c : ascii) : option Z :=
  let code := Z.of_nat (nat_of_ascii c) in
  if (48 <=? code) && (code <=? 57) then Some (code - 48) else None.

(** Accumulation of a run of decimal digits; [seen] records whether at
    least one digit was consumed.  Reading stops at the first character
    that is not a digit; what follows is never looked at. *)
Fixpoint read_digits (s : string) (acc : Z) (seen : bool) : option Z :=
  match s with
  | EmptyString => if seen then Some acc else None
  | String c rest =>
      match digit_of c with
      | Some d => read_digits rest (10 * acc + d) true
      | None => if seen then Some acc else None
      end
  end.

(** [ss >> value] for [int value], tested as a condition: leading
    white space is skipped, an optional sign and a non-empty run of
    digits are read; the extraction fails when there is no digit or
    when the number does not fit in an [int]. *)
Definition read_int (s : string) : option Z :=
  let s1 := skip_ws s in
  let '(neg, s2) :=
    match s1 with
    | String "-"%char r => (true, r)
    | String "+"%char r => (false, r)
    | _ => (false, s1)
    end in
  match read_digits s2 0 false with
  | None => None
  | Some n =>
      let v := if (neg : bool) then - n else n in
      if Int.in_range v then Some v else None
  end.

(** [os << value] for [int value]: decimal digits, a leading [-] for
    negative numbers, no padding. *)
Definition show_int (z : Z) : string :=
  NilZero.string_of_int (Z.to_int z).

End Stream.

(** ** [class SettingsManager] *)

Module SettingsManager.

Import Stream.

Definition nl : string := String newline EmptyString.

(** Body of the loop of [saveSettings]:
    [file << setting.name << "=" << setting.value << "\n"]. *)
Fixpoint write_settings (settings : registry) : string :=
  match settings with
  | [] => EmptyString
  | setting :: rest =>
      (name setting ++ "=" ++ show_int (value setting) ++ nl
         ++ write_settings rest)%string
  end.

(** Contents of the file written by [saveSettings] once the file is
    open (when it cannot be opened nothing is written). *)
Definition saveSettings (optimizer : registry) : string :=
  ("Game Settings:" ++ nl ++ write_settings (getSettings optimizer))%string.

(** One iteration of the loop of [loadSettings] on the line just read:
    [if (std::getline(ss, name, '=') && (ss >> value))
       optimizer.updateSetting(name, value);] *)
Definition process_line (line : string) (optimizer : registry) : registry :=
  match getline "="%char line with
  | None => optimizer
  | Some (n, rest) =>
      match read_int rest with
      | Some v => updateSetting n v optimizer
      | None => optimizer
      end
  end.

(** [while (std::getline(file, line)) { ... }]; every iteration
    consumes at least one character, so the length of the file bounds
    the number of iterations. *)
Fixpoint load_loop (fuel : nat) (file : string) (optimizer : registry)
    : registry :=
  match fuel with
  | O => optimizer
  | S fuel' =>
      match getline newline file with
      | None => optimizer
      | Some (line, rest) => load_loop fuel' rest (process_line line optimizer)
      end
  end.

(** [loadSettings] on the contents of the opened file (when the file
    cannot be opened the optimizer is left as it is). *)
Definition loadSettings (file : string) (optimizer : registry) : registry :=
  load_loop (S (String.length file)) file optimizer.

End SettingsManager.

Import Stream SettingsManager.

(** ** [std::map<std::string, V>] *)

(** The value of a [std::map] keyed by strings: its entries in increasing
    key order ([std::less<std::string>] compares byte by byte, as
    [String.compare] does), at most one entry per key.  This is the order
    in which a range-for loop visits the map. *)
Module StdMap.

Section Entries.

Context {V : Type}.

Definition t : Type := list (string * V).

(** [m.find(key)] *)
Fixpoint find (key : string) (m : t) : option V :=
  match m with
  | [] => None
  | (k, v) :: rest =>
      match String.compare key k with
      | Eq => Some v
      | _ => find key rest
      end
  end.

(** [m[key] = value]: overwrite the entry of [key] or insert one at its
    place in the order. *)
Fixpoint assign (key : string) (value : V) (m : t) : t :=
  match m with
  | [] => [(key, value)]
  | (k, v) :: rest =>
      match String.compare key k with
      | Lt => (key, value) :: m
      | Eq => (key, value) :: rest
      | Gt => (k, v) :: assign key value rest
      end
  end.

(** [m[key]] read as a value: an absent key is first inserted with a
    default-constructed value. *)
Definition index (default : V) (key : string) (m : t) : t * V :=
  match find key m with
  | Some v => (m, v)
  | None => (assign key default m, default)
  end.

End Entries.

End StdMap.

(** ** [class GameTweaker] *)

Module GameTweaker.

Section Tweaks.

(** What calling a [std::function<void()>] does, and the empty function. *)
Variable action : Type.
Variable empty_function : action.

Definition tweaks : Type := @StdMap.t action.

(** [tweaks[name] = tweakFunction] *)
Definition addTweak (n : string) (tweakFunction : action) (tw : tweaks) : tweaks :=
  StdMap.assign n tweakFunction tw.

(** [if (tweaks.find(name) != tweaks.end()) tweaks[name](); else ...]:
    the table afterwards and the function that was called, if any. *)
Definition applyTweak (n : string) (tw : tweaks) : tweaks * option action :=
  match StdMap.find n tw with
  | Some _ =>
      let (tw', f) := StdMap.index empty_function n tw in (tw', Some f)
  | None => (tw, None)
  end.

(** The names printed by [listTweaks], in the order of the loop. *)
Definition listTweaks (tw : tweaks) : list string := map fst tw.

End Tweaks.

End GameTweaker.

(** ** [class PerformanceProfiler] and [AdvancedPerformanceProfiler] *)

Module PerformanceProfiler.

Record profile : Type := mkProfile {
  fps : Z;
  cpuUsage : Z;
  gpuUsage : Z
}.

(** The constructor sets the three fields to zero. *)
Definition initial : profile := mkProfile 0 0 0.

(** [analyzePerformance], given the results [r1], [r2], [r3] of its three
    successive calls of [std::rand()]; [%] is the remainder of the
    truncated division. *)
Definition analyzePerformance (r1 r2 r3 : Z) : profile :=
  mkProfile (60 + (Z.rem r1 21 - 10)) (40 + Z.rem r2 21) (50 + Z.rem r3 21).

(** [availableMemory] as set by [analyzeAdvancedPerformance] from the
    result [r] of its own call of [std::rand()]. *)
Definition availableMemory (r : Z) : Z := 8192 + Z.rem r 2049.

End PerformanceProfiler.

(** ** The first [main]: load, analyse, optimise, save *)

Module BasicProgram.

Import PerformanceProfiler.

(** The three [addSetting] calls that every [main] starts with. *)
Definition default_settings : registry :=
  addSetting "Shadow Quality" 2 1 4
    (addSetting "Texture Quality" 3 1 5
       (addSetting "Resolution" 1080 720 2160 empty)).

(** [main] of lines 184-217.  [file] is what [settings.txt] holds when it
    can be opened for reading, [writable] whether it can be opened for
    writing, [r1 r2 r3] what [std::rand()] returns.  Result: the registry
    at the end and the file afterwards. *)
Definition main (file : option string) (writable : bool) (r1 r2 r3 : Z)
    : registry * option string :=
  let optimizer := default_settings in
  let optimizer :=
    match file with
    | Some text => loadSettings text optimizer
    | None => optimizer
    end in
  let profiler := analyzePerformance r1 r2 r3 in
  let targetPerformance := if 55 <? fps profiler then 60 else 50 in
  let optimizer := optimizeSettings targetPerformance optimizer in
  let file' := if writable then Some (saveSettings optimizer) else file in
  (optimizer, file').

End BasicProgram.

(** ** [class ConfigManager] *)

(** [while (std::getline(file, line)) body(line)]: the loop of both file
    readers, for any loop body. *)
Fixpoint each_line {A : Type} (body : string -> A -> A)
    (fuel : nat) (file : string) (acc : A) : A :=
  match fuel with
  | O => acc
  | S fuel' =>
      match getline newline file with
      | None => acc
      | Some (line, rest) => each_line body fuel' rest (body line acc)
      end
  end.

Module ConfigManager.

Definition config : Type := @StdMap.t string.

(** [config[key] = value] *)
Definition setConfig (key value : string) (c : config) : config :=
  StdMap.assign key value c.

(** [(it != config.end()) ? it->second : defaultValue] *)
Definition getConfig (key defaultValue : string) (c : config) : string :=
  match StdMap.find key c with
  | Some v => v
  | None => defaultValue
  end.

(** [file << pair.first << "=" << pair.second << "\n"] for every entry. *)
Fixpoint saveConfig (c : config) : string :=
  match c with
  | [] => EmptyString
  | (k, v) :: rest => (k ++ "=" ++ v ++ nl ++ saveConfig rest)%string
  end.

(** [if (std::getline(ss, key, '=') && std::getline(ss, value))
       config[key] = value;] *)
Definition process_config_line (line : string) (c : config) : config :=
  match getline "="%char line with
  | None => c
  | Some (key, rest) =>
      match getline newline rest with
      | None => c
      | Some (value, _) => StdMap.assign key value c
      end
  end.

(** [loadConfig] on the contents of the opened file. *)
Definition loadConfig (file : string) (c : config) : config :=
  each_line process_config_line (S (String.length file)) file c.

End ConfigManager.

(** ** [namespace UserInput] *)

Module UserInput.

(** Digits consumed by [operator>>]: the number read, if any, and the
    input left, which starts at the first character that is not a digit. *)
Fixpoint extract_digits (s : string) (acc : Z) (seen : bool)
    : option Z * string :=
  match s with
  | EmptyString => (if seen then Some acc else None, EmptyString)
  | String c rest =>
      match digit_of c with
      | Some d => extract_digits rest (10 * acc + d) true
      | None => (if seen then Some acc else None, s)
      end
  end.

(** [std::cin >> value] for [int value]: like [read_int], and the input
    that is left on the stream. *)
Definition extract_int (s : string) : option Z * string :=
  let s1 := skip_ws s in
  let '(neg, s2) :=
    match s1 with
    | String "-"%char r => (true, r)
    | String "+"%char r => (false, r)
    | _ => (false, s1)
    end in
  let (r, rest) := extract_digits s2 0 false in
  (match r with
   | None => None
   | Some n =>
       let v := if (neg : bool) then - n else n in
       if Int.in_range v then Some v else None
   end, rest).

(** [std::cin.ignore(max, '\n')]: drop everything up to and including
    the next line break. *)
Definition ignore_line (s : string) : string := snd (split_at newline s).

(** [getIntInput]: the accepted value and the input left after it.  The
    loop has no exit other than an accepted value; [None] stands for the
    loop still running when the fuel is spent. *)
Fixpoint getIntInput (fuel : nat) (lo hi : Z) (stdin : string)
    : option (Z * string) :=
  match fuel with
  | O => None
  | S fuel' =>
      match extract_int stdin with
      | (Some v, rest) =>
          if (v <? lo) || (hi <? v)
          then getIntInput fuel' lo hi (ignore_line rest)
          else Some (v, rest)
      | (None, rest) => getIntInput fuel' lo hi (ignore_line rest)
      end
  end.

(** [getStringInput]: [std::cin.ignore()] drops one character, then
    [std::getline] reads up to the end of the line. *)
Definition getStringInput (stdin : string) : string * string :=
  split_at newline
    match stdin with
    | EmptyString => EmptyString
    | String _ rest => rest
    end.

End UserInput.

(** ** [class RealTimeOptimizer] *)

Module RealTimeOptimizer.

Import PerformanceProfiler.

(** The [if]/[else if] chain of one turn of [monitorAndOptimize]. *)
Definition adjust (currentFPS : Z) (optimizer : registry) : registry :=
  if currentFPS <? 50 then optimizeSettings 40 optimizer
  else if 60 <? currentFPS then optimizeSettings 70 optimizer
  else optimizer.

(** [std::cin >> choice] for [char choice]: white space is skipped and
    one character is read; there is none on exhausted input. *)
Definition read_char (stdin : string) : option (ascii * string) :=
  match skip_ws stdin with
  | EmptyString => None
  | String c rest => Some (c, rest)
  end.

(** [monitorAndOptimize].  [rand] is the sequence of results of
    [std::rand()] and [i] the number of calls made so far: every turn
    makes four, one in [analyzeAdvancedPerformance] and three in
    [analyzePerformance].  Result: the registry, the input left and the
    number of calls of [std::rand()]; [None] when the input ends before a
    [q] was read (the choice is then not defined) or the fuel is spent. *)
Fixpoint monitorAndOptimize (fuel : nat) (rand : nat -> Z) (i : nat)
    (stdin : string) (optimizer : registry) : option (registry * string * nat) :=
  match fuel with
  | O => None
  | S fuel' =>
      let profiler :=
        analyzePerformance (rand (i + 1)%nat) (rand (i + 2)%nat) (rand (i + 3)%nat) in
      let optimizer := adjust (fps profiler) optimizer in
      match read_char stdin with
      | None => None
      | Some (choice, rest) =>
          if Ascii.eqb choice "q" || Ascii.eqb choice "Q"
          then Some (optimizer, rest, (i + 4)%nat)
          else monitorAndOptimize fuel' rand (i + 4)%nat rest optimizer
      end
  end.

End RealTimeOptimizer.

(** ** [class InteractiveMenu] *)

Module InteractiveMenu.

Import UserInput.

(** What a session works on: the registry, the console input still to be
    read, and what [settings.txt] holds ([None] when it cannot be opened
    for reading).  The tweak table and the profiler are left out: options
    3 and 4 only call a tweak or refresh the profiler's figures and print
    them, which touches none of the three components. *)
Record session : Type := mkSession {
  optimizer : registry;
  stdin : string;
  disk : option string
}.

(** A call of [getIntInput], given all the turns the input can feed. *)
Definition read_number (lo hi : Z) (input : string) : option (Z * string) :=
  getIntInput (S (String.length input)) lo hi input.

(** [displayMenu].  [writable] tells whether [settings.txt] can be opened
    for writing; a file that was written can be read back.  [None]: the
    menu is still running when the fuel is spent, or one of its
    [getIntInput] calls never returns. *)
Fixpoint displayMenu (fuel : nat) (writable : bool) (s : session)
    : option session :=
  match fuel with
  | O => None
  | S fuel' =>
      match read_number 1 7 (stdin s) with
      | None => None
      | Some (choice, rest) =>
          match choice with
          | 1 => displayMenu fuel' writable (mkSession (optimizer s) rest (disk s))
          | 2 =>
              match read_number 30 100 rest with
              | None => None
              | Some (targetPerformance, rest') =>
                  displayMenu fuel' writable
                    (mkSession (optimizeSettings targetPerformance (optimizer s))
                       rest' (disk s))
              end
          | 3 =>
              let (tweakName, rest') := getStringInput rest in
              displayMenu fuel' writable (mkSession (optimizer s) rest' (disk s))
          | 4 => displayMenu fuel' writable (mkSession (optimizer s) rest (disk s))
          | 5 =>
              displayMenu fuel' writable
                (mkSession (optimizer s) rest
                   (if writable then Some (saveSettings (optimizer s)) else disk s))
          | 6 =>
              displayMenu fuel' writable
                (mkSession
                   match disk s with
                   | Some text => loadSettings text (optimizer s)
                   | None => optimizer s
                   end
                   rest (disk s))
          | 7 => Some (mkSession (optimizer s) rest (disk s))
          | _ => displayMenu fuel' writable (mkSession (optimizer s) rest (disk s))
          end
      end
  end.

End InteractiveMenu.

(** ** Vocabulary of the specification *)

(** Clamp: constrain a value to the closed interval [[lo, hi]]. *)
Definition clamp (x lo hi : Z) : Z :=
  if x <? lo then lo else if hi <? x then hi else x.

(** Integer division by ten that truncates toward zero, written with
    the floor division of the magnitude. *)
Definition trunc_div10 (t : Z) : Z :=
  if t <? 0 then - ((- t) / 10) else t / 10.

(** The policy [derive(targetPerformance, minValue, maxValue)] in the
    words of the specification: [raw = targetPerformance / 10]
    truncated, then [clamp(raw, minValue, maxValue)]. *)
Definition derive (targetPerformance lo hi : Z) : Z :=
  clamp (trunc_div10 targetPerformance) lo hi.

(** The bounds invariant on one Setting. *)
Definition in_bounds (s : Setting) : Prop :=
  minValue s <= value s <= maxValue s.

(** What a Setting is defined by: everything except its current value. *)
Definition definition_of (s : Setting) : string * Z * Z :=
  (name s, minValue s, maxValue s).

(** All three integer fields are [int]s. *)
Definition int_fields (s : Setting) : Prop :=
  Int.in_range (value s) = true /\
  Int.in_range (minValue s) = true /\
  Int.in_range (maxValue s) = true.

(** The public mutators of the registry, as a call sequence. *)
Inductive call : Type :=
| Add (n : string) (defaultValue minV maxV : Z)
| OptimizeAll (targetPerformance : Z)
| Update (n : string) (v : Z).

Definition apply_call (c : call) (reg : registry) : registry :=
  match c with
  | Add n d lo hi => addSetting n d lo hi reg
  | OptimizeAll t => optimizeSettings t reg
  | Update n v => updateSetting n v reg
  end.

Definition run (cs : list call) (reg : registry) : registry :=
  fold_left (fun r c => apply_call c r) cs reg.

(** The caller contract of [add]: the default lies within the bounds. *)
Definition add_within_bounds (c : call) : Prop :=
  match c with
  | Add _ d lo hi => lo <= d <= hi
  | _ => True
  end.

(** Does character [c] occur in [s]? *)
Fixpoint occurs (c : ascii) (s : string) : bool :=
  match s with
  | EmptyString => false
  | String a rest => Ascii.eqb a c || occurs c rest
  end.

(** A name that survives the text format: it contains neither the
    separator [=] nor a line break. *)
Definition plain_name (n : string) : Prop :=
  occurs "="%char n = false /\ occurs newline n = false.

(** A string made of the given number of zero digits. *)
Fixpoint zeros (k : nat) : string :=
  match k with
  | O => EmptyString
  | S k' => String "0"%char (zeros k')
  end.

(** Does [s] begin with a decimal digit? *)
Definition starts_with_digit (s : string) : bool :=
  match s with
  | EmptyString => false
  | String c _ => match digit_of c with Some _ => true | None => false end
  end.

(** Is [s] made of white space only? *)
Fixpoint all_space (s : string) : bool :=
  match s with
  | EmptyString => true
  | String c rest => is_space c && all_space rest
  end.

(** What one turn of the loop of [updateSetting n v] does to the Setting
    it visits. *)
Definition updated (n : string) (v : Z) (s : Setting) : Setting :=
  if String.eqb (name s) n
  then set_value s (Int.std_min (maxValue s) (Int.std_max (minValue s) v))
  else s.

(** The optional sign in front of a decimal numeral. *)
Inductive sign : Type := NoSign | Plus | Minus.

Definition sign_text (sg : sign) : string :=
  match sg with
  | NoSign => EmptyString
  | Plus => "+"
  | Minus => "-"
  end.

Definition signed (sg : sign) (m : Z) : Z :=
  match sg with
  | Minus => - m
  | _ => m
  end.

(** Reading a whole file line by line, with enough fuel for its length. *)
Definition read_lines {A : Type} (body : string -> A -> A)
    (file : string) (acc : A) : A :=
  each_line body (S (String.length file)) file acc.

(** The order of the entries of a [std::map]: keys strictly increasing. *)
Definition key_lt {V : Type} (a b : string * V) : Prop :=
  String.compare (fst a) (fst b) = Lt.

Definition ordered {V : Type} (m : @StdMap.t V) : Prop :=
  StronglySorted key_lt m.

(** [std::rand()] returns a value between 0 and [RAND_MAX]. *)
Definition rand_contract (rand : nat -> Z) : Prop :=
  forall i : nat, 0 <= rand i.

(** Does the input hold a [q] or a [Q]? *)
Definition has_quit (stdin : string) : bool :=
  occurs "q"%char stdin || occurs "Q"%char stdin.

(** The text left once an optional sign has been taken off its front. *)
Definition drop_sign (s : string) : string :=
  match s with
  | String "-"%char r => r
  | String "+"%char r => r
  | _ => s
  end.

(** A value that is no number: after white space and an optional sign it
    does not begin with a decimal digit (it may be empty). *)
Definition lacks_numeral (v : string) : bool :=
  negb (starts_with_digit (drop_sign (skip_ws v))).

(** What a user can ask of the menu before leaving it. *)
Inductive command : Type :=
| View
| Optimize (targetPerformance : Z)
| Tweak (tweakName : string)
| Analyze
| Save
| Load.

(** The keys typed for a command: the number of the option on a line of
    its own, followed for options 2 and 3 by the answer to the question
    the option asks. *)
Definition typed (c : command) : string :=
  match c with
  | View => "1" ++ nl
  | Optimize t => "2" ++ nl ++ show_int t ++ nl
  | Tweak n => "3" ++ nl ++ n ++ nl
  | Analyze => "4" ++ nl
  | Save => "5" ++ nl
  | Load => "6" ++ nl
  end%string.

(** A whole session at the keyboard: the commands, then option 7. *)
Fixpoint script (cs : list command) : string :=
  match cs with
  | [] => ("7" ++ nl)%string
  | c :: rest => (typed c ++ script rest)%string
  end.

(** Answers the menu accepts at once. *)
Definition well_typed (c : command) : Prop :=
  match c with
  | Optimize t => 30 <= t <= 100
  | Tweak n => occurs newline n = false
  | _ => True
  end.

(** What a command does to the registry and to the settings file. *)
Definition effect (writable : bool) (st : registry * option string) (c : command)
    : registry * option string :=
  match c with
  | Optimize t => (optimizeSettings t (fst st), snd st)
  | Save => (fst st, if writable then Some (saveSettings (fst st)) else snd st)
  | Load =>
      (match snd st with
       | Some text => loadSettings text (fst st)
       | None => fst st
       end, snd st)
  | _ => st
  end.

(** Evaluate [digit_of] on a character literal and take the branch. *)
Ltac eval_digit :=
  match goal with
  | |- context [digit_of ?c] =>
      let r := eval vm_compute in (digit_of c) in
      change (digit_of c) with r; cbv iota beta
  end.

(** * Properties *)

(** ** Integers *)

Lemma std_min_is_min (a b : Z) : Int.std_min a b = Z.min a b.
Proof. unfold Int.std_min. destruct (Z.ltb_spec b a); lia. Qed.

Lemma std_max_is_max (a b : Z) : Int.std_max a b = Z.max a b.
Proof. unfold Int.std_max. destruct (Z.ltb_spec a b); lia. Qed.

Lemma in_range_iff (z : Z) :
  Int.in_range z = true <-> Int.INT_MIN <= z <= Int.INT_MAX.
Proof.
  unfold Int.in_range. rewrite andb_true_iff, !Z.leb_le. tauto.
Qed.

Lemma div10_is_trunc (t : Z) : Int.div t 10 = trunc_div10 t.
Proof.
  unfold Int.div, trunc_div10.
  destruct (Z.ltb_spec t 0) as [Hneg | Hpos].
  - rewrite <- (Z.opp_involutive t) at 1.
    rewrite Z.quot_opp_l by lia.
    rewrite Z.quot_div_nonneg by lia. reflexivity.
  - apply Z.quot_div_nonneg; lia.
Qed.

Lemma div10_in_range (t : Z) :
  Int.in_range t = true -> Int.in_range (Int.div t 10) = true.
Proof.
  rewrite !in_range_iff, div10_is_trunc.
  unfold trunc_div10, Int.INT_MIN, Int.INT_MAX. intros Ht.
  destruct (Z.ltb_spec t 0).
  - assert (0 <= (- t) / 10 <= - t)
      by (split; [apply Z.div_pos | apply Z.div_le_upper_bound]; lia).
    lia.
  - assert (0 <= t / 10 <= t)
      by (split; [apply Z.div_pos | apply Z.div_le_upper_bound]; lia).
    lia.
Qed.

(** The expression assigned by both mutators never leaves the range of
    [int] when its three operands are [int]s. *)
Lemma clamp_in_range (lo hi x : Z) :
  Int.in_range lo = true -> Int.in_range hi = true -> Int.in_range x = true ->
  Int.in_range (Int.std_min hi (Int.std_max lo x)) = true.
Proof.
  rewrite !in_range_iff, std_min_is_min, std_max_is_max. lia.
Qed.

Lemma code_clamp_is_clamp (lo hi x : Z) :
  lo <= hi -> Int.std_min hi (Int.std_max lo x) = clamp x lo hi.
Proof.
  intros Hle. rewrite std_min_is_min, std_max_is_max. unfold clamp.
  destruct (Z.ltb_spec x lo); [lia |].
  destruct (Z.ltb_spec hi x); lia.
Qed.

Lemma code_clamp_within (lo hi x : Z) :
  lo <= hi -> lo <= Int.std_min hi (Int.std_max lo x) <= hi.
Proof. rewrite std_min_is_min, std_max_is_max. lia. Qed.

Lemma code_clamp_fixes (lo hi x : Z) :
  lo <= x <= hi -> Int.std_min hi (Int.std_max lo x) = x.
Proof. rewrite std_min_is_min, std_max_is_max. lia. Qed.

Lemma code_clamp_inverted (lo hi x : Z) :
  hi < lo -> Int.std_min hi (Int.std_max lo x) = hi.
Proof. rewrite std_min_is_min, std_max_is_max. lia. Qed.

(** ** The registry *)

Lemma optimize_nth (t : Z) (reg : registry) (i : nat) (s : Setting) :
  nth_error reg i = Some s ->
  nth_error (optimizeSettings t reg) i =
  Some (set_value s (Int.std_min (maxValue s)
                       (Int.std_max (minValue s) (Int.div t 10)))).
Proof.
  intros Hi. unfold optimizeSettings.
  rewrite nth_error_map, Hi. reflexivity.
Qed.

Lemma update_nth (n : string) (v : Z) (reg : registry) (i : nat) (s : Setting) :
  nth_error reg i = Some s ->
  nth_error (updateSetting n v reg) i =
  Some (if String.eqb (name s) n
        then set_value s (Int.std_min (maxValue s) (Int.std_max (minValue s) v))
        else s).
Proof.
  intros Hi. unfold updateSetting.
  rewrite nth_error_map, Hi. reflexivity.
Qed.

Lemma update_is_map_updated (n : string) (v : Z) (reg : registry) :
  updateSetting n v reg = map (updated n v) reg.
Proof. reflexivity. Qed.

Lemma optimize_keeps_bounds (t : Z) (reg : registry) :
  Forall in_bounds reg -> Forall in_bounds (optimizeSettings t reg).
Proof.
  unfold optimizeSettings. induction 1 as [| s reg Hs _ IH]; simpl.
  - constructor.
  - constructor; [| exact IH].
    unfold in_bounds in *; simpl. apply code_clamp_within. lia.
Qed.

Lemma update_keeps_bounds (n : string) (v : Z) (reg : registry) :
  Forall in_bounds reg -> Forall in_bounds (updateSetting n v reg).
Proof.
  unfold updateSetting. induction 1 as [| s reg Hs _ IH]; simpl.
  - constructor.
  - constructor; [| exact IH].
    destruct (String.eqb (name s) n); [| exact Hs].
    unfold in_bounds in *; simpl. apply code_clamp_within. lia.
Qed.

Lemma add_keeps_bounds (n : string) (d lo hi : Z) (reg : registry) :
  lo <= d <= hi ->
  Forall in_bounds reg -> Forall in_bounds (addSetting n d lo hi reg).
Proof.
  intros Hd Hreg. unfold addSetting. apply Forall_app. split; [exact Hreg |].
  constructor; [exact Hd | constructor].
Qed.

Lemma apply_call_keeps_bounds (c : call) (reg : registry) :
  add_within_bounds c ->
  Forall in_bounds reg -> Forall in_bounds (apply_call c reg).
Proof.
  destruct c; simpl; intros Hc Hreg.
  - now apply add_keeps_bounds.
  - now apply optimize_keeps_bounds.
  - now apply update_keeps_bounds.
Qed.

Lemma run_keeps_bounds (cs : list call) :
  Forall add_within_bounds cs ->
  forall reg, Forall in_bounds reg -> Forall in_bounds (run cs reg).
Proof.
  unfold run. induction 1 as [| c cs Hc _ IH]; simpl; intros reg Hreg.
  - exact Hreg.
  - apply IH. now apply apply_call_keeps_bounds.
Qed.

Lemma Forall_firstn {A : Type} (P : A -> Prop) (k : nat) (l : list A) :
  Forall P l -> Forall P (firstn k l).
Proof.
  revert l. induction k as [| k IH]; intros l Hl; simpl.
  - constructor.
  - destruct Hl; constructor; auto.
Qed.

(** C1, as stated, fails on the code: [addSetting] stores the default it
    is given, so a single [add] with a default outside the bounds leaves
    a Setting outside its interval. *)
Lemma bounds_invariant_broken_by_add :
  ~ Forall in_bounds (run [Add "Shadow Quality" 9 1 4] empty).
Proof.
  intros H. inversion H as [| s l Hs _]; subst.
  unfold in_bounds in Hs; simpl in Hs. lia.
Qed.

(** C1 (amended): for every sequence of [add], [optimizeAll] and [update]
    calls in which every [add] is given a default within its bounds, every
    Setting of the registry lies within [[minValue, maxValue]] after each
    call, that is after every prefix of the sequence, starting from the
    empty registry. *)
Theorem bounds_invariant_when_adds_in_bounds (cs : list call) (k : nat) :
  Forall add_within_bounds cs ->
  Forall in_bounds (run (firstn k cs) empty).
Proof.
  intros Hcs. apply run_keeps_bounds.
  - now apply Forall_firstn.
  - constructor.
Qed.

Lemma bounds_invariant_when_adds_in_bounds_witness :
  let cs := [Add "Shadow Quality" 2 1 4; OptimizeAll 70;
             Update "Shadow Quality" 9; Add "Resolution" 1080 720 2160] in
  Forall add_within_bounds cs /\ Forall in_bounds (run (firstn 3 cs) empty).
Proof.
  intros cs.
  assert (Hcs : Forall add_within_bounds cs)
    by (unfold cs; repeat constructor; simpl; lia).
  split; [exact Hcs |].
  exact (bounds_invariant_when_adds_in_bounds cs 3 Hcs).
Defined.

(** C2: for every [targetPerformance] and every Setting of the registry
    with [minValue <= maxValue], [optimizeSettings] leaves at the same
    position the same Setting with its value replaced by
    [clamp(targetPerformance / 10, minValue, maxValue)], the division
    truncating toward zero; on bounds [[1, 5]] the targets 1000, -50 and
    35 give 5, 1 and 3, and -55 gives -5 on bounds [[-10, 10]]. *)
Theorem optimize_assigns_derive :
  (forall (t : Z) (reg : registry) (i : nat) (s : Setting),
      nth_error reg i = Some s ->
      minValue s <= maxValue s ->
      nth_error (optimizeSettings t reg) i =
      Some (set_value s (derive t (minValue s) (maxValue s)))) /\
  (forall (n : string) (v : Z),
      optimizeSettings 1000 [mkSetting n v 1 5] = [mkSetting n 5 1 5] /\
      optimizeSettings (-50) [mkSetting n v 1 5] = [mkSetting n 1 1 5] /\
      optimizeSettings 35 [mkSetting n v 1 5] = [mkSetting n 3 1 5] /\
      optimizeSettings (-55) [mkSetting n v (-10) 10] = [mkSetting n (-5) (-10) 10]).
Proof.
  split.
  - intros t reg i s Hi Hle.
    rewrite (optimize_nth t reg i s Hi).
    rewrite code_clamp_is_clamp by exact Hle.
    rewrite div10_is_trunc. reflexivity.
  - intros n v. repeat split; reflexivity.
Qed.

Lemma optimize_assigns_derive_witness :
  let reg := [mkSetting "Resolution" 1080 720 2160;
              mkSetting "Texture Quality" 3 1 5] in
  nth_error (optimizeSettings 35 reg) 1 = Some (mkSetting "Texture Quality" 3 1 5) /\
  nth_error (optimizeSettings (-50) reg) 1 = Some (mkSetting "Texture Quality" 1 1 5) /\
  nth_error (optimizeSettings 1000 reg) 0 = Some (mkSetting "Resolution" 720 720 2160).
Proof.
  intros reg. split; [| split].
  - apply (proj1 optimize_assigns_derive 35 reg 1%nat
             (mkSetting "Texture Quality" 3 1 5)); simpl; [reflexivity | lia].
  - apply (proj1 optimize_assigns_derive (-50) reg 1%nat
             (mkSetting "Texture Quality" 3 1 5)); simpl; [reflexivity | lia].
  - apply (proj1 optimize_assigns_derive 1000 reg 0%nat
             (mkSetting "Resolution" 1080 720 2160)); simpl; [reflexivity | lia].
Defined.

(** C4, as stated, fails on the code: the loop of [updateSetting] does
    not stop at the first match, so a later Setting with the same name is
    overwritten too. *)
Lemma update_changes_later_duplicate :
  let reg := [mkSetting "Shadow Quality" 1 1 4; mkSetting "Shadow Quality" 2 1 4] in
  exists first later,
    nth_error reg 0 = Some first /\ name first = "Shadow Quality" /\
    nth_error reg 1 = Some later /\ name later = "Shadow Quality" /\
    nth_error (updateSetting "Shadow Quality" 3 reg) 1 <> Some later.
Proof.
  intros reg. eexists. eexists.
  split; [reflexivity |]. split; [reflexivity |].
  split; [reflexivity |]. split; [reflexivity |].
  simpl. intros H. inversion H.
Qed.

(** C4 (amended): [update(name, rawValue)] overwrites every Setting that
    carries that name, the first and all later ones, each with
    [min(maxValue, max(minValue, rawValue))] on its own bounds, and leaves
    every Setting with another name as it was. *)
Theorem update_rewrites_every_match
    (n : string) (v : Z) (reg : registry) (i : nat) (s : Setting) :
  nth_error reg i = Some s ->
  (name s = n ->
   nth_error (updateSetting n v reg) i =
   Some (set_value s (Z.min (maxValue s) (Z.max (minValue s) v)))) /\
  (name s <> n -> nth_error (updateSetting n v reg) i = Some s).
Proof.
  intros Hi. rewrite (update_nth n v reg i s Hi).
  rewrite std_min_is_min, std_max_is_max.
  split; intros Hn.
  - apply String.eqb_eq in Hn. rewrite Hn. reflexivity.
  - apply String.eqb_neq in Hn. rewrite Hn. reflexivity.
Qed.

Lemma update_rewrites_every_match_witness :
  let reg := [mkSetting "Shadow Quality" 1 1 4; mkSetting "Resolution" 1080 720 2160;
              mkSetting "Shadow Quality" 2 1 4] in
  nth_error (updateSetting "Shadow Quality" 9 reg) 2
  = Some (mkSetting "Shadow Quality" 4 1 4) /\
  nth_error (updateSetting "Shadow Quality" 9 reg) 1
  = Some (mkSetting "Resolution" 1080 720 2160).
Proof.
  intros reg. split.
  - apply (proj1 (update_rewrites_every_match "Shadow Quality" 9 reg 2
                    (mkSetting "Shadow Quality" 2 1 4) eq_refl)).
    reflexivity.
  - apply (proj2 (update_rewrites_every_match "Shadow Quality" 9 reg 1
                    (mkSetting "Resolution" 1080 720 2160) eq_refl)).
    simpl. discriminate.
Defined.

Lemma update_absent (n : string) (v : Z) (reg : registry) :
  ~ In n (map name reg) -> updateSetting n v reg = reg.
Proof.
  unfold updateSetting. induction reg as [| s reg IH]; simpl; intros Hn.
  - reflexivity.
  - assert (Hs : String.eqb (name s) n = false)
      by (apply String.eqb_neq; intros E; apply Hn; left; exact E).
    rewrite Hs. f_equal. apply IH. intros Hin. apply Hn. right. exact Hin.
Qed.

Lemma update_app (n : string) (v : Z) (a b : registry) :
  updateSetting n v (a ++ b) = updateSetting n v a ++ updateSetting n v b.
Proof. apply map_app. Qed.

(** C6: when no Setting of the registry carries the given name,
    [update(name, rawValue)] returns the registry unchanged, whatever the
    raw value; the operation is total, it has no failing case. *)
Theorem update_unknown_name_is_noop (n : string) (v : Z) (reg : registry) :
  (forall s, In s reg -> name s <> n) ->
  updateSetting n v reg = reg.
Proof.
  intros Hfresh. apply update_absent.
  intros Hin. apply in_map_iff in Hin. destruct Hin as (s & Hs & Hin).
  exact (Hfresh s Hin Hs).
Qed.

Lemma update_unknown_name_is_noop_witness :
  let reg := [mkSetting "Resolution" 1080 720 2160; mkSetting "Texture Quality" 3 1 5] in
  updateSetting "DoesNotExist" 99 reg = reg.
Proof.
  intros reg. apply (update_unknown_name_is_noop "DoesNotExist" 99 reg).
  intros s [<- | [<- | []]]; simpl; discriminate.
Defined.

(** C7: [optimizeSettings] is idempotent: for every registry and every
    target, running it twice in a row gives the registry that running it
    once gives. *)
Theorem optimize_idempotent (t : Z) (reg : registry) :
  optimizeSettings t (optimizeSettings t reg) = optimizeSettings t reg.
Proof.
  unfold optimizeSettings. rewrite map_map.
  apply map_ext. intros s. reflexivity.
Qed.

(** C8: [optimizeSettings] and [updateSetting] change nothing but the
    [value] fields: the sequence of (name, minValue, maxValue) triples,
    hence also the number of Settings and their order, is the same after
    the call as before. *)
Theorem mutators_keep_definitions (t : Z) (n : string) (v : Z) (reg : registry) :
  (map definition_of (optimizeSettings t reg) = map definition_of reg /\
   List.length (optimizeSettings t reg) = List.length reg) /\
  (map definition_of (updateSetting n v reg) = map definition_of reg /\
   List.length (updateSetting n v reg) = List.length reg).
Proof.
  unfold optimizeSettings, updateSetting.
  rewrite !map_map, !length_map.
  split; (split; [apply map_ext; intros s | reflexivity]).
  - reflexivity.
  - destruct (String.eqb (name s) n); reflexivity.
Qed.

(** C9: a Setting whose bounds are inverted ([maxValue < minValue]) is
    set to exactly [maxValue] by [optimizeSettings], for every target,
    and by [updateSetting] on its name, for every raw value. *)
Theorem inverted_bounds_give_max (reg : registry) (i : nat) (s : Setting) :
  nth_error reg i = Some s ->
  maxValue s < minValue s ->
  (forall t : Z,
      nth_error (optimizeSettings t reg) i = Some (set_value s (maxValue s))) /\
  (forall v : Z,
      nth_error (updateSetting (name s) v reg) i = Some (set_value s (maxValue s))).
Proof.
  intros Hi Hinv. split.
  - intros t. rewrite (optimize_nth t reg i s Hi).
    rewrite code_clamp_inverted by exact Hinv. reflexivity.
  - intros v. rewrite (update_nth (name s) v reg i s Hi).
    rewrite String.eqb_refl.
    rewrite code_clamp_inverted by exact Hinv. reflexivity.
Qed.

Lemma inverted_bounds_give_max_witness :
  let reg := [mkSetting "Resolution" 1080 720 2160; mkSetting "Odd" 7 5 1] in
  nth_error (optimizeSettings 1000 reg) 1 = Some (mkSetting "Odd" 1 5 1) /\
  nth_error (updateSetting "Odd" (-3) reg) 1 = Some (mkSetting "Odd" 1 5 1).
Proof.
  intros reg.
  assert (H := inverted_bounds_give_max reg 1 (mkSetting "Odd" 7 5 1) eq_refl).
  simpl in H. specialize (H ltac:(lia)).
  split; [apply (proj1 H) | apply (proj2 H)].
Defined.

(** ** Strings and the two stream readers *)

Lemma append_assoc (a b c : string) :
  ((a ++ b) ++ c)%string = (a ++ (b ++ c))%string.
Proof. induction a as [| x a IH]; simpl; [reflexivity | now rewrite IH]. Qed.

Lemma append_length (a b : string) :
  String.length (a ++ b) = (String.length a + String.length b)%nat.
Proof. induction a as [| x a IH]; simpl; [reflexivity | now rewrite IH]. Qed.

Lemma occurs_append (c : ascii) (a b : string) :
  occurs c (a ++ b) = occurs c a || occurs c b.
Proof.
  induction a as [| x a IH]; simpl; [reflexivity |].
  rewrite IH. apply orb_assoc.
Qed.

Lemma split_at_found (d : ascii) (a b : string) :
  occurs d a = false -> split_at d (a ++ String d b) = (a, b).
Proof.
  induction a as [| x a IH]; simpl; intros Ha.
  - now rewrite Ascii.eqb_refl.
  - apply orb_false_iff in Ha. destruct Ha as [Hx Ha].
    rewrite Hx, (IH Ha). reflexivity.
Qed.

Lemma split_at_missing (d : ascii) (a : string) :
  occurs d a = false -> split_at d a = (a, EmptyString).
Proof.
  induction a as [| x a IH]; simpl; intros Ha; [reflexivity |].
  apply orb_false_iff in Ha. destruct Ha as [Hx Ha].
  rewrite Hx, (IH Ha). reflexivity.
Qed.

Lemma split_at_rest_length (d : ascii) (s : string) :
  (String.length (snd (split_at d s)) <= String.length s)%nat.
Proof.
  induction s as [| x s IH]; simpl; [lia |].
  destruct (Ascii.eqb x d); simpl; [lia |].
  destruct (split_at d s) as [l r]; simpl in *. lia.
Qed.

Lemma getline_rest_shorter (d : ascii) (s line rest : string) :
  getline d s = Some (line, rest) ->
  (String.length rest < String.length s)%nat.
Proof.
  destruct s as [| x s]; simpl; [discriminate |].
  pose proof (split_at_rest_length d s) as Hlen.
  destruct (Ascii.eqb x d).
  - intros [= _ <-]. lia.
  - destruct (split_at d s) as [l r]; simpl in Hlen.
    intros [= _ <-]. lia.
Qed.

Lemma getline_found (d : ascii) (a b : string) :
  occurs d a = false -> getline d (a ++ String d b) = Some (a, b).
Proof.
  intros Ha. unfold getline.
  rewrite <- (split_at_found d a b Ha).
  destruct a; reflexivity.
Qed.

(** ** The loop of [loadSettings] *)

(** Fuel never decides the outcome: with any two amounts above the length
    of the file the loop has ended by itself, on exhausted input, and
    returns the same registry. *)
Lemma load_loop_fuel (f1 : nat) :
  forall (f2 : nat) (file : string) (opt : registry),
    (String.length file < f1)%nat -> (String.length file < f2)%nat ->
    load_loop f1 file opt = load_loop f2 file opt.
Proof.
  induction f1 as [| f1 IH]; intros f2 file opt H1 H2; [lia |].
  destruct f2 as [| f2]; [lia |]. simpl.
  destruct (getline newline file) as [[line rest] |] eqn:Hg; [| reflexivity].
  apply getline_rest_shorter in Hg. apply IH; lia.
Qed.

Lemma load_loop_step (fuel : nat) (file : string) (opt : registry) :
  load_loop (S fuel) file opt =
  match getline newline file with
  | None => opt
  | Some (line, rest) => load_loop fuel rest (process_line line opt)
  end.
Proof. reflexivity. Qed.

Lemma loadSettings_empty (opt : registry) : loadSettings EmptyString opt = opt.
Proof. reflexivity. Qed.

(** One turn of the loop: the first line is handed to [process_line], the
    rest of the file is read in the same way. *)
Lemma loadSettings_line (line rest : string) (opt : registry) :
  occurs newline line = false ->
  loadSettings (line ++ String newline rest) opt =
  loadSettings rest (process_line line opt).
Proof.
  intros Hline. unfold loadSettings.
  rewrite (load_loop_step (String.length (line ++ String newline rest))).
  rewrite (getline_found newline line rest Hline).
  apply load_loop_fuel; rewrite ?append_length; simpl; lia.
Qed.

Lemma process_line_pair (n rest : string) (opt : registry) :
  occurs "="%char n = false ->
  process_line (n ++ String "="%char rest) opt =
  match read_int rest with
  | Some v => updateSetting n v opt
  | None => opt
  end.
Proof.
  intros Hn. unfold process_line.
  rewrite (getline_found "="%char n rest Hn). reflexivity.
Qed.

Lemma process_line_without_separator (line : string) (opt : registry) :
  occurs "="%char line = false -> process_line line opt = opt.
Proof.
  intros Hline. unfold process_line, getline.
  destruct line as [| c line]; [reflexivity |].
  rewrite (split_at_missing _ _ Hline). reflexivity.
Qed.

(** ** Reading back a decimal numeral *)

Lemma read_digits_stop (trail : string) (acc : Z) :
  starts_with_digit trail = false -> read_digits trail acc true = Some acc.
Proof.
  destruct trail as [| c trail]; simpl; [reflexivity |].
  destruct (digit_of c); [discriminate | reflexivity].
Qed.

Lemma read_digits_uint_acc (u : uint) :
  forall (trail : string) (acc : Z) (p : positive),
    acc = Z.pos p ->
    starts_with_digit trail = false ->
    read_digits (NilEmpty.string_of_uint u ++ trail) acc true =
    Some (Z.pos (Pos.of_uint_acc u p)).
Proof.
  induction u; intros trail acc p Hacc Htrail;
    cbn [NilEmpty.string_of_uint append read_digits Pos.of_uint_acc];
    try (eval_digit; apply IHu; [subst acc; lia | exact Htrail]).
  subst acc. now apply read_digits_stop.
Qed.

Lemma read_digits_uint (u : uint) :
  forall trail : string,
    starts_with_digit trail = false ->
    read_digits (NilEmpty.string_of_uint u ++ trail) 0 true =
    Some (Z.of_N (Pos.of_uint u)).
Proof.
  induction u; intros trail Htrail;
    cbn [NilEmpty.string_of_uint append read_digits Pos.of_uint];
    try eval_digit;
    try (apply read_digits_uint_acc; [reflexivity | exact Htrail]).
  - now apply read_digits_stop.
  - now apply IHu.
Qed.

Lemma string_of_uint_head (u : uint) (seen : bool) (acc : Z) (trail : string) :
  u <> Nil ->
  starts_with_digit (NilEmpty.string_of_uint u ++ trail) = true /\
  read_digits (NilEmpty.string_of_uint u ++ trail) 0 seen =
  read_digits (NilEmpty.string_of_uint u ++ trail) 0 true.
Proof.
  intros Hu. destruct u; [congruence | ..]; split; reflexivity.
Qed.

Lemma show_int_pos (p : positive) :
  show_int (Z.pos p) = NilEmpty.string_of_uint (Pos.to_uint p).
Proof.
  unfold show_int. simpl Z.to_int. unfold NilZero.string_of_int, NilZero.string_of_uint.
  pose proof (Unsigned.to_uint_nonnil p) as Hp.
  destruct (Pos.to_uint p); [congruence | reflexivity ..].
Qed.

Lemma show_int_neg (p : positive) :
  show_int (Z.neg p) = String "-"%char (show_int (Z.pos p)).
Proof. reflexivity. Qed.

Lemma show_int_head (m : Z) (trail : string) :
  0 <= m -> starts_with_digit (show_int m ++ trail) = true.
Proof.
  intros Hm. destruct m as [| p | p]; [reflexivity | | lia].
  rewrite show_int_pos.
  apply (string_of_uint_head _ false 0 trail), Unsigned.to_uint_nonnil.
Qed.

Lemma read_digits_show (m : Z) (seen : bool) (trail : string) :
  0 <= m ->
  starts_with_digit trail = false ->
  read_digits (show_int m ++ trail) 0 seen = Some m.
Proof.
  intros Hm Htrail. destruct m as [| p | p]; [| | lia].
  - change ((show_int 0 ++ trail)%string) with (String "0"%char trail).
    cbn [read_digits]. eval_digit. now apply read_digits_stop.
  - rewrite show_int_pos.
    destruct (string_of_uint_head (Pos.to_uint p) seen 0 trail
                (Unsigned.to_uint_nonnil p)) as [_ ->].
    rewrite (read_digits_uint _ trail Htrail).
    now rewrite Unsigned.of_to.
Qed.

Lemma read_digits_zeros (k : nat) (s : string) :
  read_digits (zeros k ++ s) 0 true = read_digits s 0 true.
Proof.
  induction k as [| k IH]; cbn [zeros append read_digits]; [reflexivity |].
  eval_digit. exact IH.
Qed.

Lemma read_digits_padded (k : nat) (m : Z) (trail : string) :
  0 <= m ->
  starts_with_digit trail = false ->
  read_digits (zeros k ++ show_int m ++ trail) 0 false = Some m.
Proof.
  intros Hm Htrail. destruct k as [| k]; cbn [zeros append read_digits].
  - now apply read_digits_show.
  - eval_digit. rewrite read_digits_zeros. now apply read_digits_show.
Qed.

Lemma padded_head (k : nat) (m : Z) (trail : string) :
  0 <= m -> starts_with_digit (zeros k ++ show_int m ++ trail) = true.
Proof.
  intros Hm. destruct k as [| k]; simpl; [now apply show_int_head | reflexivity].
Qed.

Lemma digit_is_no_space_no_sign (c : ascii) (d : Z) :
  digit_of c = Some d ->
  is_space c = false /\ c <> "-"%char /\ c <> "+"%char.
Proof.
  intros H.
  assert (Hcode : 48 <= Z.of_nat (nat_of_ascii c) <= 57).
  { unfold digit_of in H.
    destruct (Z.leb_spec 48 (Z.of_nat (nat_of_ascii c)));
      destruct (Z.leb_spec (Z.of_nat (nat_of_ascii c)) 57);
      simpl in H; try discriminate H; lia. }
  split; [| split].
  - unfold is_space.
    destruct (Nat.eqb_spec (nat_of_ascii c) 32); [lia |].
    destruct (Nat.leb_spec (nat_of_ascii c) 13); [lia |].
    now rewrite andb_false_r.
  - intros ->. vm_compute in Hcode. intuition congruence.
  - intros ->. vm_compute in Hcode. intuition congruence.
Qed.

Lemma skip_ws_spaces (ws s : string) :
  all_space ws = true -> skip_ws (ws ++ s) = skip_ws s.
Proof.
  induction ws as [| c ws IH]; simpl; intros Hws; [reflexivity |].
  apply andb_true_iff in Hws. destruct Hws as [Hc Hws].
  rewrite Hc. now apply IH.
Qed.

Lemma read_int_unsigned (body : string) :
  starts_with_digit body = true ->
  read_int body =
  match read_digits body 0 false with
  | None => None
  | Some n => if Int.in_range n then Some n else None
  end.
Proof.
  destruct body as [| c body]; [discriminate |].
  cbn [starts_with_digit].
  destruct (digit_of c) as [d |] eqn:Hc; [intros _ | discriminate].
  destruct (digit_is_no_space_no_sign c d Hc) as (Hsp & Hminus & Hplus).
  unfold read_int. cbn [skip_ws]. rewrite Hsp.
  destruct c as [[|] [|] [|] [|] [|] [|] [|] [|]];
    try reflexivity; congruence.
Qed.

Lemma read_int_numeral (ws : string) (sg : sign) (k : nat) (m : Z) (trail : string) :
  all_space ws = true ->
  0 <= m ->
  Int.in_range (signed sg m) = true ->
  starts_with_digit trail = false ->
  read_int (ws ++ sign_text sg ++ zeros k ++ show_int m ++ trail) = Some (signed sg m).
Proof.
  intros Hws Hm Hrange Htrail.
  assert (Hskip : forall s, read_int (ws ++ s) = read_int s)
    by (intros s; unfold read_int; now rewrite skip_ws_spaces).
  rewrite Hskip.
  destruct sg; simpl sign_text; simpl signed in *.
  - simpl append at 1. rewrite read_int_unsigned by now apply padded_head.
    rewrite read_digits_padded by assumption. now rewrite Hrange.
  - change (("+" ++ zeros k ++ show_int m ++ trail)%string)
      with (String "+"%char (zeros k ++ show_int m ++ trail)).
    unfold read_int. simpl skip_ws. cbv iota beta.
    rewrite read_digits_padded by assumption. now rewrite Hrange.
  - change (("-" ++ zeros k ++ show_int m ++ trail)%string)
      with (String "-"%char (zeros k ++ show_int m ++ trail)).
    unfold read_int. simpl skip_ws. cbv iota beta.
    rewrite read_digits_padded by assumption. now rewrite Hrange.
Qed.

Lemma append_nil_r (a : string) : (a ++ "")%string = a.
Proof. induction a as [| x a IH]; simpl; [reflexivity | now rewrite IH]. Qed.

(** What [operator<<] prints, [operator>>] reads back. *)
Lemma read_int_show (v : Z) :
  Int.in_range v = true -> read_int (show_int v) = Some v.
Proof.
  intros Hv. destruct v as [| p | p].
  - reflexivity.
  - pose proof (read_int_numeral "" NoSign 0 (Z.pos p) "" eq_refl) as H.
    cbn [sign_text zeros append signed] in H.
    rewrite append_nil_r in H. apply H; [lia | exact Hv | reflexivity].
  - pose proof (read_int_numeral "" Minus 0 (Z.pos p) "" eq_refl) as H.
    cbn [sign_text zeros append signed] in H.
    rewrite append_nil_r in H. rewrite show_int_neg.
    apply H; [lia | exact Hv | reflexivity].
Qed.

Lemma uint_text_one_line (u : uint) :
  occurs newline (NilEmpty.string_of_uint u) = false.
Proof. induction u; simpl; auto. Qed.

Lemma show_int_one_line (v : Z) : occurs newline (show_int v) = false.
Proof.
  destruct v as [| p | p].
  - reflexivity.
  - rewrite show_int_pos. apply uint_text_one_line.
  - rewrite show_int_neg, show_int_pos. simpl. apply uint_text_one_line.
Qed.

(** ** Saving, then loading *)

(** Reading a file body written by [saveSettings] replays one
    [updateSetting] per Setting, in order. *)
Lemma load_written (reg : registry) :
  Forall (fun s => plain_name (name s)) reg ->
  Forall int_fields reg ->
  forall opt : registry,
    loadSettings (write_settings reg) opt =
    fold_left (fun o s => updateSetting (name s) (value s) o) reg opt.
Proof.
  induction reg as [| s reg IH]; intros Hnames Hints opt.
  - reflexivity.
  - inversion Hnames as [| ? ? [Heq Hnl] Hnames']; subst.
    inversion Hints as [| ? ? (Hv & _) Hints']; subst.
    cbn [write_settings fold_left].
    change ((name s ++ "=" ++ show_int (value s) ++ nl ++ write_settings reg)%string)
      with ((name s ++ (String "="%char (show_int (value s))
                        ++ String newline (write_settings reg)))%string).
    rewrite <- append_assoc.
    rewrite loadSettings_line.
    + rewrite (process_line_pair _ _ _ Heq), (read_int_show _ Hv).
      now apply IH.
    + rewrite occurs_append, Hnl. simpl. apply show_int_one_line.
Qed.

Lemma load_saved (reg opt : registry) :
  Forall (fun s => plain_name (name s)) reg ->
  Forall int_fields reg ->
  loadSettings (saveSettings reg) opt =
  fold_left (fun o s => updateSetting (name s) (value s) o) reg opt.
Proof.
  intros Hnames Hints. unfold saveSettings, getSettings.
  change (("Game Settings:" ++ nl ++ write_settings reg)%string)
    with (("Game Settings:" ++ String newline (write_settings reg))%string).
  rewrite loadSettings_line by reflexivity.
  rewrite process_line_without_separator by reflexivity.
  now apply load_written.
Qed.

Lemma same_definition_same_setting (f s : Setting) :
  definition_of f = definition_of s ->
  in_bounds s ->
  set_value f (Int.std_min (maxValue f) (Int.std_max (minValue f) (value s))) = s.
Proof.
  destruct f as [fn fv flo fhi], s as [sn sv slo shi].
  unfold definition_of, in_bounds, set_value; simpl.
  intros [= -> -> ->] Hb. now rewrite code_clamp_fixes.
Qed.

(** Replaying the saved values over a registry with the same definitions:
    the Settings already replayed ([done]) are never touched again, because
    names are pairwise distinct. *)
Lemma replay_restores (todo : registry) :
  forall done fresh : registry,
    map definition_of fresh = map definition_of todo ->
    NoDup (map name todo) ->
    (forall n, In n (map name done) -> ~ In n (map name todo)) ->
    Forall in_bounds todo ->
    fold_left (fun o s => updateSetting (name s) (value s) o) todo (done ++ fresh)
    = done ++ todo.
Proof.
  induction todo as [| s todo IH]; intros done fresh Hdefs Hnodup Hdisj Hb.
  - destruct fresh; [reflexivity | discriminate].
  - destruct fresh as [| f fresh]; [discriminate |].
    cbn [map] in Hdefs.
    assert (Hf : definition_of f = definition_of s) by congruence.
    assert (Hdefs' : map definition_of fresh = map definition_of todo)
      by congruence.
    clear Hdefs. rename Hdefs' into Hdefs.
    inversion Hnodup as [| ? ? Hnotin Hnodup']; subst.
    inversion Hb as [| ? ? Hs Hb']; subst.
    assert (Hnames : map name fresh = map name todo).
    { pose proof (f_equal (map (fun d => fst (fst d))) Hdefs) as Hn.
      rewrite !map_map in Hn. exact Hn. }
    assert (Hfn : name f = name s)
      by (unfold definition_of in Hf; congruence).
    cbn [fold_left].
    rewrite update_app.
    rewrite update_absent
      by (intros Hin; apply (Hdisj _ Hin); left; reflexivity).
    change (updateSetting (name s) (value s) (f :: fresh))
      with ((if String.eqb (name f) (name s)
             then set_value f (Int.std_min (maxValue f)
                                 (Int.std_max (minValue f) (value s)))
             else f) :: updateSetting (name s) (value s) fresh).
    replace (String.eqb (name f) (name s)) with true
      by (symmetry; apply String.eqb_eq; exact Hfn).
    rewrite (same_definition_same_setting f s Hf Hs).
    rewrite (update_absent (name s) (value s) fresh)
      by (rewrite Hnames; exact Hnotin).
    change (done ++ s :: fresh) with (done ++ [s] ++ fresh).
    change (done ++ s :: todo) with (done ++ [s] ++ todo).
    rewrite !app_assoc.
    apply IH; [exact Hdefs | exact Hnodup' | | exact Hb'].
    intros n Hin Hin'. rewrite map_app in Hin. apply in_app_or in Hin.
    destruct Hin as [Hin | [<- | []]].
    + apply (Hdisj n Hin). right. exact Hin'.
    + exact (Hnotin Hin').
Qed.

(** The same replay seen from one position of the loading registry: its
    Setting goes through the updates one after the other. *)
Lemma replay_pointwise (saved : registry) :
  forall (fresh : registry) (i : nat) (f : Setting),
    nth_error fresh i = Some f ->
    nth_error
      (fold_left (fun o s => updateSetting (name s) (value s) o) saved fresh) i
    = Some (fold_left (fun f' s => updated (name s) (value s) f') saved f).
Proof.
  induction saved as [| s saved IH]; intros fresh i f Hi; cbn [fold_left].
  - exact Hi.
  - apply IH. exact (update_nth (name s) (value s) fresh i f Hi).
Qed.

Lemma replay_skips_other_names (saved : registry) :
  forall f : Setting,
    ~ In (name f) (map name saved) ->
    fold_left (fun f' s => updated (name s) (value s) f') saved f = f.
Proof.
  induction saved as [| s saved IH]; intros f Hf; cbn [fold_left].
  - reflexivity.
  - unfold updated at 2.
    replace (String.eqb (name f) (name s)) with false.
    + apply IH. intros Hin. apply Hf. right. exact Hin.
    + symmetry. apply String.eqb_neq. intros E. apply Hf. left. symmetry. exact E.
Qed.

Lemma replay_settles (saved : registry) (f s : Setting) :
  NoDup (map name saved) ->
  In s saved ->
  definition_of f = definition_of s ->
  in_bounds s ->
  fold_left (fun f' s' => updated (name s') (value s') f') saved f = s.
Proof.
  intros Hnodup Hin Hdef Hb.
  assert (Hname : name f = name s) by (unfold definition_of in Hdef; congruence).
  apply in_split in Hin. destruct Hin as (before & after & ->).
  rewrite map_app in Hnodup. cbn [map] in Hnodup.
  pose proof (NoDup_remove_2 _ _ _ Hnodup) as Hnotin.
  rewrite fold_left_app. cbn [fold_left].
  rewrite (replay_skips_other_names before f)
    by (rewrite Hname; intros Hin; apply Hnotin, in_or_app; left; exact Hin).
  unfold updated at 2.
  replace (String.eqb (name f) (name s)) with true
    by (symmetry; apply String.eqb_eq; exact Hname).
  rewrite (same_definition_same_setting f s Hdef Hb).
  apply replay_skips_other_names.
  intros Hin. apply Hnotin, in_or_app. right. exact Hin.
Qed.

(** C3, as stated, fails on the code in three ways, each with every value
    within its bounds and a fresh registry holding the same definitions:
    two Settings that share a name both end with the value written last;
    a name containing [=] is cut at its first [=], so its line does not
    parse; a name containing a line break is spread over two lines. *)
Lemma round_trip_needs_distinct_plain_names :
  (let reg := [mkSetting "Shadow" 1 1 4; mkSetting "Shadow" 2 1 4] in
   let fresh := [mkSetting "Shadow" 3 1 4; mkSetting "Shadow" 3 1 4] in
   Forall in_bounds reg /\
   map definition_of fresh = map definition_of reg /\
   map value (loadSettings (saveSettings reg) fresh) <> map value reg) /\
  (let reg := [mkSetting "a=b" 3 1 5] in
   let fresh := [mkSetting "a=b" 1 1 5] in
   Forall in_bounds reg /\
   map definition_of fresh = map definition_of reg /\
   map value (loadSettings (saveSettings reg) fresh) <> map value reg) /\
  (let reg := [mkSetting ("a" ++ nl ++ "b") 3 1 5] in
   let fresh := [mkSetting ("a" ++ nl ++ "b") 1 1 5] in
   Forall in_bounds reg /\
   map definition_of fresh = map definition_of reg /\
   map value (loadSettings (saveSettings reg) fresh) <> map value reg).
Proof.
  assert (Hb : forall n v lo hi, lo <= v <= hi -> in_bounds (mkSetting n v lo hi))
    by (intros; assumption).
  split; [| split]; cbv zeta.
  - split; [repeat (constructor; [apply Hb; lia |]); constructor |].
    split; [reflexivity |]. vm_compute. discriminate.
  - split; [repeat (constructor; [apply Hb; lia |]); constructor |].
    split; [reflexivity |]. vm_compute. discriminate.
  - split; [repeat (constructor; [apply Hb; lia |]); constructor |].
    split; [reflexivity |]. vm_compute. discriminate.
Qed.

(** C3 (amended): for every registry of [int] Settings whose values all
    lie within their bounds and whose names are pairwise distinct and
    contain neither [=] nor a line break, loading the text written by
    [saveSettings] gives every Setting of the loading registry that is
    defined (name and bounds) like a saved Setting the value that Setting
    had when it was saved; so a registry holding the same definitions in
    the same order, with any values, becomes equal to the saved one. *)
Theorem save_then_load_restores (reg fresh : registry) :
  Forall int_fields reg ->
  Forall in_bounds reg ->
  NoDup (map name reg) ->
  Forall (fun s => plain_name (name s)) reg ->
  (forall (i : nat) (f s : Setting),
      nth_error fresh i = Some f ->
      In s reg ->
      definition_of f = definition_of s ->
      nth_error (loadSettings (saveSettings reg) fresh) i = Some s) /\
  (map definition_of fresh = map definition_of reg ->
   loadSettings (saveSettings reg) fresh = reg).
Proof.
  intros Hints Hb Hnodup Hnames.
  rewrite (load_saved reg fresh Hnames Hints). split.
  - intros i f s Hi Hin Hdef.
    rewrite (replay_pointwise reg fresh i f Hi). f_equal.
    apply replay_settles; try assumption.
    rewrite Forall_forall in Hb. now apply Hb.
  - intros Hdefs.
    apply (replay_restores reg [] fresh Hdefs Hnodup); [| exact Hb].
    intros n [].
Qed.

Lemma save_then_load_restores_witness :
  let reg := [mkSetting "Resolution" 1440 720 2160; mkSetting "TextureQuality" 3 1 5] in
  let fresh := [mkSetting "Resolution" 1080 720 2160; mkSetting "TextureQuality" 1 1 5] in
  let swapped := [mkSetting "TextureQuality" 5 1 5; mkSetting "Resolution" 720 720 2160] in
  loadSettings (saveSettings reg) fresh = reg /\
  nth_error (loadSettings (saveSettings reg) swapped) 0
  = Some (mkSetting "TextureQuality" 3 1 5).
Proof.
  intros reg fresh swapped.
  assert (Hints : Forall int_fields reg)
    by (repeat (constructor; [repeat split |]); constructor).
  assert (Hb : Forall in_bounds reg)
    by (repeat (constructor; [unfold in_bounds; simpl; lia |]); constructor).
  assert (Hnodup : NoDup (map name reg))
    by (repeat (constructor; [simpl; intuition discriminate |]); constructor).
  assert (Hnames : Forall (fun s => plain_name (name s)) reg)
    by (repeat (constructor; [split; reflexivity |]); constructor).
  split.
  - apply (proj2 (save_then_load_restores reg fresh Hints Hb Hnodup Hnames)).
    reflexivity.
  - apply (proj1 (save_then_load_restores reg swapped Hints Hb Hnodup Hnames)
             0%nat (mkSetting "TextureQuality" 5 1 5)).
    + reflexivity.
    + right. left. reflexivity.
    + reflexivity.
Defined.

(** C10: a line [name=...] of the file is accepted as soon as the text
    after the first [=] begins, after optional white space, with a decimal
    numeral (optional sign, any leading zeros) whose value is an [int];
    whatever follows the numeral on the line is ignored, and the loader
    goes on with the named Settings updated.  In particular the line
    [Resolution=1440abc] updates [Resolution] with 1440. *)
Theorem numeral_prefix_is_accepted :
  (forall (n ws : string) (sg : sign) (k : nat) (m : Z) (trail rest : string)
          (reg : registry),
      occurs "="%char n = false ->
      occurs newline
        (n ++ "=" ++ ws ++ sign_text sg ++ zeros k ++ show_int m ++ trail) = false ->
      all_space ws = true ->
      0 <= m ->
      Int.in_range (signed sg m) = true ->
      starts_with_digit trail = false ->
      loadSettings
        ((n ++ "=" ++ ws ++ sign_text sg ++ zeros k ++ show_int m ++ trail)
           ++ nl ++ rest) reg =
      loadSettings rest (updateSetting n (signed sg m) reg)) /\
  (forall reg : registry,
      loadSettings ("Resolution=1440abc" ++ nl) reg =
      updateSetting "Resolution" 1440 reg).
Proof.
  assert (Hgen : forall n ws sg k m trail rest reg,
      occurs "="%char n = false ->
      occurs newline
        (n ++ "=" ++ ws ++ sign_text sg ++ zeros k ++ show_int m ++ trail) = false ->
      all_space ws = true ->
      0 <= m ->
      Int.in_range (signed sg m) = true ->
      starts_with_digit trail = false ->
      loadSettings
        ((n ++ "=" ++ ws ++ sign_text sg ++ zeros k ++ show_int m ++ trail)
           ++ nl ++ rest) reg =
      loadSettings rest (updateSetting n (signed sg m) reg)).
  { intros n ws sg k m trail rest reg Hn Hline Hws Hm Hrange Htrail.
    change ((nl ++ rest)%string) with (String newline rest).
    rewrite (loadSettings_line _ rest reg Hline).
    change ((n ++ "=" ++ ws ++ sign_text sg ++ zeros k ++ show_int m ++ trail)%string)
      with ((n ++ String "="%char
                    (ws ++ sign_text sg ++ zeros k ++ show_int m ++ trail))%string).
    rewrite (process_line_pair _ _ _ Hn).
    now rewrite read_int_numeral. }
  split; [exact Hgen |].
  intros reg.
  exact (Hgen "Resolution" "" NoSign 0%nat 1440 "abc" "" reg
           eq_refl eq_refl eq_refl ltac:(lia) eq_refl eq_refl).
Qed.

Lemma numeral_prefix_is_accepted_witness :
  let reg := [mkSetting "Resolution" 1080 720 2160; mkSetting "Shadow Quality" 2 1 4] in
  loadSettings ("Shadow Quality= +007 high" ++ nl ++ "Resolution=-12px" ++ nl) reg =
  [mkSetting "Resolution" 720 720 2160; mkSetting "Shadow Quality" 4 1 4].
Proof.
  intros reg.
  pose proof (proj1 numeral_prefix_is_accepted
                "Shadow Quality" " " Plus 2%nat 7 " high"
                ("Resolution=-12px" ++ nl)%string reg
                eq_refl eq_refl eq_refl ltac:(lia) eq_refl eq_refl) as H1.
  pose proof (proj1 numeral_prefix_is_accepted
                "Resolution" "" Minus 0%nat 12 "px" ""
                (updateSetting "Shadow Quality" 7 reg)
                eq_refl eq_refl eq_refl ltac:(lia) eq_refl eq_refl) as H2.
  exact (eq_trans H1 H2).
Defined.

(** * Further properties of the code *)

(** ** The line loop *)

Lemma each_line_fuel {A : Type} (body : string -> A -> A) (f1 : nat) :
  forall (f2 : nat) (file : string) (acc : A),
    (String.length file < f1)%nat -> (String.length file < f2)%nat ->
    each_line body f1 file acc = each_line body f2 file acc.
Proof.
  induction f1 as [| f1 IH]; intros f2 file acc H1 H2; [lia |].
  destruct f2 as [| f2]; [lia |]. simpl.
  destruct (getline newline file) as [[line rest] |] eqn:Hg; [| reflexivity].
  apply getline_rest_shorter in Hg. apply IH; lia.
Qed.

Lemma read_lines_empty {A : Type} (body : string -> A -> A) (acc : A) :
  read_lines body EmptyString acc = acc.
Proof. reflexivity. Qed.

Lemma read_lines_line {A : Type} (body : string -> A -> A)
    (line rest : string) (acc : A) :
  occurs newline line = false ->
  read_lines body (line ++ String newline rest) acc =
  read_lines body rest (body line acc).
Proof.
  intros Hline. unfold read_lines.
  change (each_line body (S ?n) ?f ?a)
    with (match getline newline f with
          | None => a
          | Some (l, r) => each_line body n r (body l a)
          end) at 1.
  rewrite (getline_found newline line rest Hline).
  apply each_line_fuel; rewrite ?append_length; simpl; lia.
Qed.

Lemma load_loop_is_each_line (fuel : nat) :
  forall (file : string) (opt : registry),
    load_loop fuel file opt = each_line process_line fuel file opt.
Proof.
  induction fuel as [| fuel IH]; intros file opt; simpl; [reflexivity |].
  destruct (getline newline file) as [[line rest] |]; [apply IH | reflexivity].
Qed.

Lemma loadSettings_is_read_lines (file : string) (opt : registry) :
  loadSettings file opt = read_lines process_line file opt.
Proof. apply load_loop_is_each_line. Qed.

(** An invariant of every loop body is an invariant of the whole loop. *)
Lemma each_line_invariant {A : Type} (body : string -> A -> A) (P : A -> Prop) :
  (forall line acc, P acc -> P (body line acc)) ->
  forall (fuel : nat) (file : string) (acc : A),
    P acc -> P (each_line body fuel file acc).
Proof.
  intros Hbody. induction fuel as [| fuel IH]; intros file acc Hacc; simpl.
  - exact Hacc.
  - destruct (getline newline file) as [[line rest] |]; [| exact Hacc].
    apply IH, Hbody, Hacc.
Qed.

Lemma first_line (a : string) :
  occurs newline a = false \/
  exists l a' : string,
    a = (l ++ String newline a')%string /\ occurs newline l = false /\
    (String.length a' < String.length a)%nat.
Proof.
  induction a as [| c a IH].
  - left. reflexivity.
  - destruct (Ascii.eqb c newline) eqn:Hc.
    + right. exists EmptyString, a. apply Ascii.eqb_eq in Hc. subst c.
      repeat split. simpl. lia.
    + destruct IH as [Ha | (l & a' & -> & Hl & Hlen)].
      * left. simpl. now rewrite Hc.
      * right. exists (String c l), a'. repeat split.
        -- simpl. now rewrite Hc.
        -- simpl. rewrite append_length in *. simpl in *. lia.
Qed.

Lemma read_lines_append {A : Type} (body : string -> A -> A) (n : nat) :
  forall (a b : string) (acc : A),
    (String.length a <= n)%nat ->
    read_lines body ((a ++ nl) ++ b) acc =
    read_lines body b (read_lines body (a ++ nl) acc).
Proof.
  induction n as [| n IH]; intros a b acc Hlen.
  - destruct a; [| simpl in Hlen; lia].
    change ((("" ++ nl) ++ b)%string) with (("" ++ String newline b)%string).
    change (("" ++ nl)%string) with (("" ++ String newline "")%string).
    now rewrite !read_lines_line, read_lines_empty by reflexivity.
  - destruct (first_line a) as [Ha | (l & a' & -> & Hl & Hlen')].
    + rewrite append_assoc.
      change ((nl ++ b)%string) with (String newline b).
      change ((a ++ nl)%string) with ((a ++ String newline "")%string).
      now rewrite !read_lines_line, read_lines_empty by exact Ha.
    + rewrite !append_assoc.
      change ((String newline a' ++ nl ++ b)%string)
        with (String newline (a' ++ nl ++ b)).
      change ((String newline a' ++ nl)%string)
        with (String newline (a' ++ nl)).
      rewrite !read_lines_line by exact Hl.
      rewrite <- append_assoc. apply IH.
      rewrite append_length in Hlen. simpl in Hlen. lia.
Qed.

Lemma split_at_keeps_absence (c d : ascii) (s : string) :
  occurs c s = false ->
  occurs c (fst (split_at d s)) = false /\ occurs c (snd (split_at d s)) = false.
Proof.
  induction s as [| x s IH]; simpl; intros Hs; [split; reflexivity |].
  apply orb_false_iff in Hs. destruct Hs as [Hx Hs].
  destruct (Ascii.eqb x d); simpl.
  - split; [reflexivity | exact Hs].
  - destruct (IH Hs) as [H1 H2].
    destruct (split_at d s) as [l r]; simpl in *.
    rewrite Hx, H1. split; [reflexivity | exact H2].
Qed.

Lemma each_line_all_skipped {A : Type} (body : string -> A -> A) (c : ascii) :
  (forall line acc, occurs c line = false -> body line acc = acc) ->
  forall (fuel : nat) (file : string) (acc : A),
    occurs c file = false -> each_line body fuel file acc = acc.
Proof.
  intros Hbody. induction fuel as [| fuel IH]; intros file acc Hfile; simpl.
  - reflexivity.
  - destruct file as [| x file]; [reflexivity |].
    unfold getline.
    destruct (split_at_keeps_absence c newline (String x file) Hfile) as [H1 H2].
    destruct (split_at newline (String x file)) as [line rest]; simpl in H1, H2.
    rewrite (Hbody line acc H1). now apply IH.
Qed.

(** ** Loading and the registry *)

Lemma update_keeps_definitions (n : string) (v : Z) (reg : registry) :
  map definition_of (updateSetting n v reg) = map definition_of reg.
Proof.
  unfold updateSetting. rewrite map_map. apply map_ext. intros s.
  destruct (String.eqb (name s) n); reflexivity.
Qed.

Lemma process_line_cases (line : string) (reg : registry) :
  process_line line reg = reg \/
  exists (n : string) (v : Z), process_line line reg = updateSetting n v reg.
Proof.
  unfold process_line.
  destruct (getline "="%char line) as [[n rest] |]; [| left; reflexivity].
  destruct (read_int rest) as [v |]; [right; now exists n, v | left; reflexivity].
Qed.

(** What every [updateSetting] preserves, loading any file preserves. *)
Lemma load_invariant (P : registry -> Prop) :
  (forall n v reg, P reg -> P (updateSetting n v reg)) ->
  forall (file : string) (reg : registry), P reg -> P (loadSettings file reg).
Proof.
  intros Hupd file reg Hreg. rewrite loadSettings_is_read_lines.
  unfold read_lines.
  apply (each_line_invariant process_line P); [| exact Hreg].
  intros line acc Hacc.
  destruct (process_line_cases line acc) as [-> | (n & v & ->)]; auto.
Qed.

Lemma optimize_by_definitions (t : Z) (r1 : registry) :
  forall r2 : registry,
    map definition_of r1 = map definition_of r2 ->
    optimizeSettings t r1 = optimizeSettings t r2.
Proof.
  induction r1 as [| a r1 IH]; intros [| b r2] Hdefs; try discriminate.
  - reflexivity.
  - cbn [map] in Hdefs.
    assert (Hab : definition_of a = definition_of b) by congruence.
    assert (Hrest : map definition_of r1 = map definition_of r2) by congruence.
    unfold optimizeSettings in *. cbn [map]. rewrite (IH r2 Hrest). f_equal.
    destruct a, b. unfold definition_of in Hab. simpl in Hab.
    injection Hab as -> -> ->. reflexivity.
Qed.

Lemma load_keeps_definitions (file : string) (reg : registry) :
  map definition_of (loadSettings file reg) = map definition_of reg.
Proof.
  apply (load_invariant (fun r => map definition_of r = map definition_of reg));
    [| reflexivity].
  intros n v r Hr. now rewrite update_keeps_definitions.
Qed.

(** X1: [optimizeSettings] depends on names and bounds only, so it
    overrides whatever was loaded or set before: optimising after loading
    any file, or after any [updateSetting], gives the registry that
    optimising alone gives. *)
Theorem optimize_overrides_earlier_values
    (t : Z) (file : string) (n : string) (v : Z) (reg : registry) :
  optimizeSettings t (loadSettings file reg) = optimizeSettings t reg /\
  optimizeSettings t (updateSetting n v reg) = optimizeSettings t reg.
Proof.
  split; apply optimize_by_definitions.
  - apply load_keeps_definitions.
  - apply update_keeps_definitions.
Qed.

(** X2: loading a file, whatever its text, changes no name, no bound, and
    neither the number nor the order of the Settings; and when every
    Setting was within its bounds before, every Setting is within its
    bounds after. *)
Theorem load_keeps_definitions_and_bounds (file : string) (reg : registry) :
  map definition_of (loadSettings file reg) = map definition_of reg /\
  List.length (loadSettings file reg) = List.length reg /\
  (Forall in_bounds reg -> Forall in_bounds (loadSettings file reg)).
Proof.
  pose proof (load_keeps_definitions file reg) as Hdefs.
  split; [exact Hdefs |]. split.
  - now rewrite <- (length_map definition_of), Hdefs, length_map.
  - apply load_invariant. intros n v r. apply update_keeps_bounds.
Qed.

Lemma load_keeps_definitions_and_bounds_witness :
  Forall in_bounds
    (loadSettings ("Resolution=99999" ++ nl ++ "Shadow Quality=-7" ++ nl)
       BasicProgram.default_settings).
Proof.
  apply (proj2 (proj2 (load_keeps_definitions_and_bounds
                         ("Resolution=99999" ++ nl ++ "Shadow Quality=-7" ++ nl)%string
                         BasicProgram.default_settings))).
  unfold BasicProgram.default_settings, addSetting, empty. simpl.
  repeat (constructor; [unfold in_bounds; simpl; lia |]). constructor.
Defined.

(** X3: a file in which the character [=] does not occur, such as an
    empty file or one holding only the header line, leaves the registry
    exactly as it was. *)
Theorem load_without_separator_is_noop (file : string) (reg : registry) :
  occurs "="%char file = false -> loadSettings file reg = reg.
Proof.
  intros Hfile. rewrite loadSettings_is_read_lines. unfold read_lines.
  apply (each_line_all_skipped process_line "="%char); [| exact Hfile].
  intros line acc. apply process_line_without_separator.
Qed.

Lemma load_without_separator_is_noop_witness :
  loadSettings ("Game Settings:" ++ nl ++ "no settings yet" ++ nl)
    BasicProgram.default_settings
  = BasicProgram.default_settings.
Proof.
  apply (load_without_separator_is_noop
           ("Game Settings:" ++ nl ++ "no settings yet" ++ nl)%string
           BasicProgram.default_settings).
  reflexivity.
Defined.

(** X4: loading a text that ends with a line break followed by a second
    text is loading the first and then the second: the lines of a file
    are applied one after the other, so a later line for a name decides
    over an earlier one. *)
Theorem load_concatenation (a b : string) (reg : registry) :
  loadSettings ((a ++ nl) ++ b) reg = loadSettings b (loadSettings (a ++ nl) reg).
Proof.
  rewrite !loadSettings_is_read_lines.
  apply (read_lines_append process_line (String.length a)). lia.
Qed.

(** X5: two successive [updateSetting] calls on the same name leave what
    the second alone leaves; on different names they can be swapped. *)
Theorem update_twice (n m : string) (v w : Z) (reg : registry) :
  updateSetting n w (updateSetting n v reg) = updateSetting n w reg /\
  (n <> m ->
   updateSetting n v (updateSetting m w reg) =
   updateSetting m w (updateSetting n v reg)).
Proof.
  unfold updateSetting. rewrite !map_map. split.
  - apply map_ext. intros s.
    destruct (String.eqb (name s) n) eqn:Hn; cbn [name set_value]; rewrite Hn;
      reflexivity.
  - intros Hnm. apply map_ext. intros s.
    destruct (String.eqb (name s) n) eqn:Hn;
      destruct (String.eqb (name s) m) eqn:Hm;
      cbn [name set_value minValue maxValue]; rewrite ?Hn, ?Hm; try reflexivity.
    apply String.eqb_eq in Hn, Hm. congruence.
Qed.

Lemma update_twice_witness :
  let reg := BasicProgram.default_settings in
  updateSetting "Resolution" 1440 (updateSetting "Shadow Quality" 3 reg) =
  updateSetting "Shadow Quality" 3 (updateSetting "Resolution" 1440 reg).
Proof.
  intros reg.
  apply (proj2 (update_twice "Resolution" "Shadow Quality" 1440 3 reg)).
  discriminate.
Defined.

(** X6: [optimizeSettings] brings every Setting whose bounds are in order
    ([minValue <= maxValue]) within them, whatever its value was before,
    even one stored out of bounds by [addSetting]; [updateSetting] does so
    for the Settings carrying its name. *)
Theorem mutators_restore_bounds
    (t : Z) (n : string) (v : Z) (reg : registry) (i : nat) (s : Setting) :
  nth_error reg i = Some s ->
  minValue s <= maxValue s ->
  (exists s', nth_error (optimizeSettings t reg) i = Some s' /\ in_bounds s') /\
  (name s = n ->
   exists s', nth_error (updateSetting n v reg) i = Some s' /\ in_bounds s').
Proof.
  intros Hi Hle. split.
  - eexists. split; [apply (optimize_nth t reg i s Hi) |].
    unfold in_bounds. simpl. now apply code_clamp_within.
  - intros Hn. eexists. split; [apply (update_nth n v reg i s Hi) |].
    apply String.eqb_eq in Hn. rewrite Hn.
    unfold in_bounds. simpl. now apply code_clamp_within.
Qed.

Lemma mutators_restore_bounds_witness :
  let reg := addSetting "Shadow Quality" 9 1 4 empty in
  exists s', nth_error (optimizeSettings 20 reg) 0 = Some s' /\ in_bounds s'.
Proof.
  intros reg.
  apply (mutators_restore_bounds 20 "Shadow Quality" 0 reg 0
           (mkSetting "Shadow Quality" 9 1 4) eq_refl).
  simpl. lia.
Defined.

Lemma read_int_numeral_any
    (ws : string) (sg : sign) (k : nat) (m : Z) (trail : string) :
  all_space ws = true ->
  0 <= m ->
  starts_with_digit trail = false ->
  read_int (ws ++ sign_text sg ++ zeros k ++ show_int m ++ trail) =
  if Int.in_range (signed sg m) then Some (signed sg m) else None.
Proof.
  intros Hws Hm Htrail.
  assert (Hskip : forall s, read_int (ws ++ s) = read_int s)
    by (intros s; unfold read_int; now rewrite skip_ws_spaces).
  rewrite Hskip.
  destruct sg; simpl sign_text; simpl signed in *.
  - simpl append at 1. rewrite read_int_unsigned by now apply padded_head.
    now rewrite read_digits_padded by assumption.
  - change (("+" ++ zeros k ++ show_int m ++ trail)%string)
      with (String "+"%char (zeros k ++ show_int m ++ trail)).
    unfold read_int. simpl skip_ws. cbv iota beta.
    now rewrite read_digits_padded by assumption.
  - change (("-" ++ zeros k ++ show_int m ++ trail)%string)
      with (String "-"%char (zeros k ++ show_int m ++ trail)).
    unfold read_int. simpl skip_ws. cbv iota beta.
    now rewrite read_digits_padded by assumption.
Qed.

Lemma read_int_show_any (v : Z) (trail : string) :
  starts_with_digit trail = false ->
  read_int (show_int v ++ trail) = if Int.in_range v then Some v else None.
Proof.
  intros Htrail. destruct v as [| p | p].
  - exact (read_int_numeral_any "" NoSign 0 0 trail eq_refl ltac:(lia) Htrail).
  - exact (read_int_numeral_any "" NoSign 0 (Z.pos p) trail eq_refl ltac:(lia) Htrail).
  - rewrite show_int_neg.
    exact (read_int_numeral_any "" Minus 0 (Z.pos p) trail eq_refl ltac:(lia) Htrail).
Qed.

(** X7: a line whose value is a decimal number that does not fit in an
    [int] is skipped like any malformed line: the named Setting is not
    moved to a bound, it is left alone, and loading goes on with the next
    line. *)
Theorem oversized_value_is_skipped
    (n : string) (v : Z) (trail rest : string) (reg : registry) :
  occurs "="%char n = false ->
  occurs newline (n ++ "=" ++ show_int v ++ trail) = false ->
  Int.in_range v = false ->
  starts_with_digit trail = false ->
  loadSettings ((n ++ "=" ++ show_int v ++ trail) ++ nl ++ rest) reg =
  loadSettings rest reg.
Proof.
  intros Hn Hline Hv Htrail.
  change ((nl ++ rest)%string) with (String newline rest).
  rewrite (loadSettings_line _ rest reg Hline).
  change ((n ++ "=" ++ show_int v ++ trail)%string)
    with ((n ++ String "="%char (show_int v ++ trail))%string).
  rewrite (process_line_pair _ _ _ Hn).
  now rewrite (read_int_show_any v trail Htrail), Hv.
Qed.

Lemma oversized_value_is_skipped_witness :
  loadSettings (("Resolution" ++ "=" ++ show_int 4294967296 ++ "") ++ nl
                  ++ "Shadow Quality=3" ++ nl)
    BasicProgram.default_settings
  = loadSettings ("Shadow Quality=3" ++ nl) BasicProgram.default_settings.
Proof.
  apply (oversized_value_is_skipped "Resolution" 4294967296 ""
           ("Shadow Quality=3" ++ nl)%string BasicProgram.default_settings);
    reflexivity.
Defined.

(** ** The profiler and the programs built on it *)

(** X8: for every result of [std::rand()] (a number that is not
    negative), [analyzePerformance] yields an FPS between 50 and 70, a CPU
    usage between 40 and 60 and a GPU usage between 50 and 70, and
    [analyzeAdvancedPerformance] an available memory between 8192 and
    10240, the ranges announced in the comments of the code. *)
Theorem profiler_ranges (r0 r1 r2 r3 : Z) :
  0 <= r0 -> 0 <= r1 -> 0 <= r2 -> 0 <= r3 ->
  let p := PerformanceProfiler.analyzePerformance r1 r2 r3 in
  50 <= PerformanceProfiler.fps p <= 70 /\
  40 <= PerformanceProfiler.cpuUsage p <= 60 /\
  50 <= PerformanceProfiler.gpuUsage p <= 70 /\
  8192 <= PerformanceProfiler.availableMemory r0 <= 10240.
Proof.
  intros H0 H1 H2 H3.
  cbv [PerformanceProfiler.analyzePerformance PerformanceProfiler.fps
       PerformanceProfiler.cpuUsage PerformanceProfiler.gpuUsage
       PerformanceProfiler.availableMemory].
  pose proof (Z.rem_bound_pos r1 21 H1 ltac:(lia)).
  pose proof (Z.rem_bound_pos r2 21 H2 ltac:(lia)).
  pose proof (Z.rem_bound_pos r3 21 H3 ltac:(lia)).
  pose proof (Z.rem_bound_pos r0 2049 H0 ltac:(lia)).
  lia.
Qed.

Lemma profiler_ranges_witness :
  let p := PerformanceProfiler.analyzePerformance 41 18467 6334 in
  50 <= PerformanceProfiler.fps p <= 70 /\
  40 <= PerformanceProfiler.cpuUsage p <= 60 /\
  50 <= PerformanceProfiler.gpuUsage p <= 70 /\
  8192 <= PerformanceProfiler.availableMemory 26500 <= 10240.
Proof.
  apply (profiler_ranges 26500 41 18467 6334); lia.
Defined.

Lemma optimize_keeps_definitions (t : Z) (reg : registry) :
  map definition_of (optimizeSettings t reg) = map definition_of reg.
Proof.
  unfold optimizeSettings. rewrite map_map. apply map_ext. reflexivity.
Qed.

(** X9: the first [main] ends with Resolution 720, Texture Quality 5 and
    Shadow Quality 4 whatever [settings.txt] held and whatever
    [std::rand()] returned, and when the file can be written it holds
    exactly these values afterwards: nothing read from the file survives
    the optimisation that follows. *)
Theorem basic_program_outcome
    (file : option string) (writable : bool) (r1 r2 r3 : Z) :
  BasicProgram.main file writable r1 r2 r3 =
  ([mkSetting "Resolution" 720 720 2160;
    mkSetting "Texture Quality" 5 1 5;
    mkSetting "Shadow Quality" 4 1 4],
   if writable
   then Some ("Game Settings:" ++ nl ++ "Resolution=720" ++ nl
                ++ "Texture Quality=5" ++ nl ++ "Shadow Quality=4" ++ nl)%string
   else file).
Proof.
  unfold BasicProgram.main.
  set (target := if 55 <? _ then 60 else 50).
  set (loaded := match file with
                 | Some text => loadSettings text BasicProgram.default_settings
                 | None => BasicProgram.default_settings
                 end).
  assert (Hopt : optimizeSettings target loaded =
                 optimizeSettings target BasicProgram.default_settings).
  { apply optimize_by_definitions. unfold loaded.
    destruct file; [apply load_keeps_definitions | reflexivity]. }
  rewrite Hopt. unfold target.
  destruct (55 <? _); destruct writable; reflexivity.
Qed.

Lemma adjust_after_analysis (r1 r2 r3 : Z) (reg : registry) :
  0 <= r1 ->
  let p := PerformanceProfiler.analyzePerformance r1 r2 r3 in
  RealTimeOptimizer.adjust (PerformanceProfiler.fps p) reg = reg \/
  RealTimeOptimizer.adjust (PerformanceProfiler.fps p) reg = optimizeSettings 70 reg.
Proof.
  intros H1.
  cbv [PerformanceProfiler.analyzePerformance PerformanceProfiler.fps
       RealTimeOptimizer.adjust].
  pose proof (Z.rem_bound_pos r1 21 H1 ltac:(lia)).
  destruct (Z.ltb_spec (60 + (Z.rem r1 21 - 10)) 50); [lia |].
  destruct (60 <? 60 + (Z.rem r1 21 - 10)); [right | left]; reflexivity.
Qed.

Lemma optimize_absorbs (t : Z) (reg : registry) :
  optimizeSettings t (optimizeSettings t reg) = optimizeSettings t reg.
Proof. apply optimize_by_definitions, optimize_keeps_definitions. Qed.

Lemma next_char_before_quit (s : string) :
  has_quit s = true ->
  exists (c : ascii) (rest : string),
    skip_ws s = String c rest /\
    (String.length rest < String.length s)%nat /\
    (Ascii.eqb c "q" || Ascii.eqb c "Q" = true \/ has_quit rest = true).
Proof.
  unfold has_quit. induction s as [| a s IH]; simpl; [discriminate |].
  intros Hq. destruct (is_space a) eqn:Hsp.
  - assert (Ha : Ascii.eqb a "q" = false /\ Ascii.eqb a "Q" = false).
    { split; apply Ascii.eqb_neq; intros ->; discriminate Hsp. }
    destruct Ha as [Ha1 Ha2]. rewrite Ha1, Ha2 in Hq. simpl in Hq.
    destruct (IH Hq) as (c & rest & Hskip & Hlen & Hc).
    exists c, rest. repeat split; [exact Hskip | lia | exact Hc].
  - exists a, s. repeat split; [lia |].
    destruct (Ascii.eqb a "q"), (Ascii.eqb a "Q"); simpl in *; auto.
Qed.

Lemma monitor_with_fuel (rand : nat -> Z) (fuel : nat) :
  rand_contract rand ->
  forall (i : nat) (stdin : string) (reg : registry),
    (String.length stdin < fuel)%nat ->
    has_quit stdin = true ->
    exists (reg' : registry) (rest : string) (j : nat),
      RealTimeOptimizer.monitorAndOptimize fuel rand i stdin reg
      = Some (reg', rest, j) /\
      (reg' = reg \/ reg' = optimizeSettings 70 reg).
Proof.
  intros Hrand. induction fuel as [| fuel IH]; intros i stdin reg Hlen Hq; [lia |].
  destruct (next_char_before_quit stdin Hq) as (c & rest & Hskip & Hrest & Hc).
  cbn [RealTimeOptimizer.monitorAndOptimize].
  unfold RealTimeOptimizer.read_char. rewrite Hskip.
  pose proof (adjust_after_analysis (rand (i + 1)%nat) (rand (i + 2)%nat)
                (rand (i + 3)%nat) reg (Hrand _)) as Hadj.
  cbv zeta in Hadj.
  set (reg1 := RealTimeOptimizer.adjust _ reg) in *.
  destruct (Ascii.eqb c "q" || Ascii.eqb c "Q") eqn:Hquit.
  - exists reg1, rest, (i + 4)%nat. split; [reflexivity | exact Hadj].
  - destruct Hc as [Hc | Hc]; [discriminate |].
    destruct (IH (i + 4)%nat rest reg1 ltac:(lia) Hc)
      as (reg' & rest' & j & Hrun & Hreg').
    exists reg', rest', j. split; [exact Hrun |].
    destruct Hadj as [E | E]; rewrite E in Hreg'; [exact Hreg' |].
    rewrite optimize_absorbs in Hreg'. right. tauto.
Qed.

(** X10: when the input holds a [q] or a [Q] and [std::rand()] keeps its
    contract, [monitorAndOptimize] returns, and the registry it leaves is
    either the one it was given or that registry optimised for the target
    70: the low-FPS branch, [optimizeSettings(40)], is never taken, because
    the analysed FPS is never below 50. *)
Theorem monitor_returns_without_lowering
    (rand : nat -> Z) (i : nat) (stdin : string) (reg : registry) :
  rand_contract rand ->
  has_quit stdin = true ->
  exists (reg' : registry) (rest : string) (j : nat),
    RealTimeOptimizer.monitorAndOptimize (S (String.length stdin)) rand i stdin reg
    = Some (reg', rest, j) /\
    (reg' = reg \/ reg' = optimizeSettings 70 reg).
Proof.
  intros Hrand Hq. apply monitor_with_fuel; [exact Hrand | lia | exact Hq].
Qed.

Lemma monitor_returns_without_lowering_witness :
  exists (reg' : registry) (rest : string) (j : nat),
    RealTimeOptimizer.monitorAndOptimize (S (String.length ("c" ++ nl ++ "q" ++ nl)))
      (fun k => Z.of_nat (17 * k)) 0 ("c" ++ nl ++ "q" ++ nl)
      BasicProgram.default_settings
    = Some (reg', rest, j) /\
    (reg' = BasicProgram.default_settings \/
     reg' = optimizeSettings 70 BasicProgram.default_settings).
Proof.
  apply (monitor_returns_without_lowering (fun k => Z.of_nat (17 * k)) 0
           ("c" ++ nl ++ "q" ++ nl)%string BasicProgram.default_settings).
  - intros k. lia.
  - reflexivity.
Defined.

(** ** [std::map], the configuration and the tweak table *)

Lemma compare_refl (k : string) : String.compare k k = Eq.
Proof. now apply String_as_OT.cmp_eq. Qed.

Lemma compare_eq (a b : string) : String.compare a b = Eq -> a = b.
Proof. apply String_as_OT.cmp_eq. Qed.

Lemma compare_lt_trans (a b c : string) :
  String.compare a b = Lt -> String.compare b c = Lt -> String.compare a c = Lt.
Proof.
  intros Hab Hbc. apply String_as_OT.cmp_lt.
  apply String_as_OT.lt_trans with b; now apply String_as_OT.cmp_lt.
Qed.

Lemma compare_lt_gt (a b : string) :
  String.compare a b = Lt -> String.compare b a = Gt.
Proof. intros H. rewrite String.compare_antisym, H. reflexivity. Qed.

Lemma compare_gt_lt (a b : string) :
  String.compare a b = Gt -> String.compare b a = Lt.
Proof. intros H. rewrite String.compare_antisym, H. reflexivity. Qed.

Lemma find_assign_same {V : Type} (k : string) (v : V) (m : StdMap.t) :
  StdMap.find k (StdMap.assign k v m) = Some v.
Proof.
  induction m as [| [k' v'] m IH]; simpl.
  - now rewrite compare_refl.
  - destruct (String.compare k k') eqn:Hc; simpl.
    + now rewrite compare_refl.
    + now rewrite compare_refl.
    + rewrite Hc. exact IH.
Qed.

Lemma find_assign_other {V : Type} (k k' : string) (v : V) (m : StdMap.t) :
  k' <> k -> StdMap.find k' (StdMap.assign k v m) = StdMap.find k' m.
Proof.
  intros Hk.
  assert (Hne : String.compare k' k <> Eq) by (intros E; apply Hk, compare_eq, E).
  induction m as [| [k0 v0] m IH]; simpl.
  - destruct (String.compare k' k); [congruence | reflexivity ..].
  - destruct (String.compare k k0) eqn:Hc; simpl.
    + apply compare_eq in Hc. subst k0.
      destruct (String.compare k' k); [congruence | reflexivity ..].
    + destruct (String.compare k' k); [congruence | reflexivity ..].
    + now rewrite IH.
Qed.

Lemma assign_keeps_order {V : Type} (k : string) (v : V) (m : StdMap.t) :
  ordered m -> ordered (StdMap.assign k v m).
Proof.
  unfold ordered. induction 1 as [| [k0 v0] m Hm IH Hall]; simpl.
  - repeat constructor.
  - destruct (String.compare k k0) eqn:Hc.
    + apply compare_eq in Hc. subst k0. constructor; assumption.
    + constructor; [constructor; assumption |].
      constructor; [exact Hc |].
      eapply Forall_impl; [| exact Hall].
      intros e He. unfold key_lt in *. simpl in *.
      now apply compare_lt_trans with k0.
    + constructor; [exact IH |].
      assert (Hk : key_lt (k0, v0) (k, v)) by (now apply compare_gt_lt).
      clear IH Hm. induction Hall as [| [k1 v1] m H1 Hall IHall]; simpl.
      * constructor; [exact Hk | constructor].
      * destruct (String.compare k k1); constructor; auto.
Qed.

Lemma assign_after_all {V : Type} (k : string) (v : V) (m : StdMap.t) :
  Forall (fun e => key_lt e (k, v)) m -> StdMap.assign k v m = m ++ [(k, v)].
Proof.
  induction 1 as [| [k0 v0] m H0 _ IH]; simpl; [reflexivity |].
  unfold key_lt in H0. simpl in H0.
  rewrite (compare_lt_gt _ _ H0). now rewrite IH.
Qed.

Lemma ordered_prefix_below {V : Type} (l1 : @StdMap.t V) (e : string * V)
    (l2 : @StdMap.t V) :
  ordered (l1 ++ e :: l2) -> Forall (fun x => key_lt x e) l1.
Proof.
  unfold ordered. induction l1 as [| x l1 IH]; simpl; intros H.
  - constructor.
  - apply StronglySorted_inv in H. destruct H as [Hs Hall].
    constructor; [| exact (IH Hs)].
    rewrite Forall_forall in Hall. apply Hall, in_or_app. right. left. reflexivity.
Qed.

(** X11: [getConfig] after [setConfig]: the key just set reads as the
    value just set, and every other key reads as it did before; a key
    that is absent reads as the default handed to [getConfig]. *)
Theorem config_get_after_set
    (k k' v d : string) (c : ConfigManager.config) :
  ConfigManager.getConfig k d (ConfigManager.setConfig k v c) = v /\
  (k' <> k ->
   ConfigManager.getConfig k' d (ConfigManager.setConfig k v c) =
   ConfigManager.getConfig k' d c) /\
  ConfigManager.getConfig k d [] = d.
Proof.
  unfold ConfigManager.getConfig, ConfigManager.setConfig. repeat split.
  - now rewrite find_assign_same.
  - intros Hk. now rewrite find_assign_other.
Qed.

Lemma config_get_after_set_witness :
  ConfigManager.getConfig "theme" "none"
    (ConfigManager.setConfig "last_run" "successful" [("theme", "dark")])
  = ConfigManager.getConfig "theme" "none" [("theme", "dark")].
Proof.
  apply (proj1 (proj2 (config_get_after_set "last_run" "theme" "successful" "none"
                         [("theme", "dark")]))).
  discriminate.
Defined.

(** X12: [applyTweak] never changes the tweak table (the [tweaks[name]]
    it evaluates is guarded by [find], so no empty entry is inserted); it
    calls the function most recently added under the name, and adding a
    tweak under one name does not change what is called for another. *)
Theorem apply_tweak_calls_latest
    (action : Type) (empty_function : action)
    (n m : string) (f : action) (tw : GameTweaker.tweaks action) :
  fst (GameTweaker.applyTweak action empty_function n tw) = tw /\
  snd (GameTweaker.applyTweak action empty_function n
         (GameTweaker.addTweak action n f tw)) = Some f /\
  (m <> n ->
   snd (GameTweaker.applyTweak action empty_function m
          (GameTweaker.addTweak action n f tw)) =
   snd (GameTweaker.applyTweak action empty_function m tw)).
Proof.
  unfold GameTweaker.applyTweak, GameTweaker.addTweak, StdMap.index.
  split; [| split].
  - destruct (StdMap.find n tw); reflexivity.
  - now rewrite find_assign_same.
  - intros Hm. rewrite (find_assign_other n m f tw Hm).
    destruct (StdMap.find m tw); reflexivity.
Qed.

Lemma apply_tweak_calls_latest_witness :
  snd (GameTweaker.applyTweak nat 0%nat "Boost FPS"
         (GameTweaker.addTweak nat "Enhance Graphics" 2%nat
            (GameTweaker.addTweak nat "Boost FPS" 1%nat [])))
  = snd (GameTweaker.applyTweak nat 0%nat "Boost FPS"
           (GameTweaker.addTweak nat "Boost FPS" 1%nat [])).
Proof.
  apply (proj2 (proj2 (apply_tweak_calls_latest nat 0%nat
                         "Enhance Graphics" "Boost FPS" 2%nat
                         (GameTweaker.addTweak nat "Boost FPS" 1%nat [])))).
  discriminate.
Defined.

Lemma process_config_line_pair (k v : string) (c : ConfigManager.config) :
  occurs "="%char k = false ->
  occurs newline v = false ->
  ConfigManager.process_config_line (k ++ String "="%char v) c =
  match v with
  | EmptyString => c
  | String _ _ => StdMap.assign k v c
  end.
Proof.
  intros Hk Hv. unfold ConfigManager.process_config_line.
  rewrite (getline_found "="%char k v Hk).
  destruct v as [| x v]; [reflexivity |].
  unfold getline. now rewrite (split_at_missing newline _ Hv).
Qed.

Lemma loadConfig_line (line rest : string) (c : ConfigManager.config) :
  occurs newline line = false ->
  ConfigManager.loadConfig (line ++ String newline rest) c =
  ConfigManager.loadConfig rest (ConfigManager.process_config_line line c).
Proof. apply (read_lines_line ConfigManager.process_config_line). Qed.

(** Reading back what [saveConfig] wrote replays one assignment per
    entry, in the order of the map. *)
Lemma load_saved_config (c : ConfigManager.config) :
  Forall (fun e => plain_name (fst e) /\ snd e <> EmptyString /\
                   occurs newline (snd e) = false) c ->
  forall c0 : ConfigManager.config,
    ConfigManager.loadConfig (ConfigManager.saveConfig c) c0 =
    fold_left (fun m e => StdMap.assign (fst e) (snd e) m) c c0.
Proof.
  induction 1 as [| [k v] c ((Heq & Hnl) & Hv & Hvnl) _ IH]; intros c0.
  - reflexivity.
  - simpl in Heq, Hnl, Hv, Hvnl.
    cbn [ConfigManager.saveConfig fold_left fst snd].
    change ((k ++ "=" ++ v ++ nl ++ ConfigManager.saveConfig c)%string)
      with ((k ++ (String "="%char v
                    ++ String newline (ConfigManager.saveConfig c)))%string).
    rewrite <- append_assoc.
    rewrite loadConfig_line
      by (rewrite occurs_append, Hnl; simpl; exact Hvnl).
    rewrite (process_config_line_pair k v c0 Heq Hvnl).
    destruct v as [| x v]; [congruence |]. apply IH.
Qed.

Lemma replay_ordered {V : Type} (todo : @StdMap.t V) :
  forall done : @StdMap.t V,
    ordered (done ++ todo) ->
    fold_left (fun m e => StdMap.assign (fst e) (snd e) m) todo done
    = done ++ todo.
Proof.
  induction todo as [| [k v] todo IH]; intros done Hord; cbn [fold_left fst snd].
  - now rewrite app_nil_r.
  - rewrite (assign_after_all k v done (ordered_prefix_below done (k, v) todo Hord)).
    change (done ++ (k, v) :: todo) with (done ++ [(k, v)] ++ todo) in *.
    rewrite app_assoc in *. now apply IH.
Qed.

(** X13: saving a configuration and loading the text into an empty
    configuration gives the configuration back, provided no key contains
    [=] or a line break and every value is non-empty and free of line
    breaks; values may themselves contain [=]. *)
Theorem config_round_trip (c : ConfigManager.config) :
  ordered c ->
  Forall (fun e => plain_name (fst e) /\ snd e <> EmptyString /\
                   occurs newline (snd e) = false) c ->
  ConfigManager.loadConfig (ConfigManager.saveConfig c) [] = c.
Proof.
  intros Hord Hplain. rewrite (load_saved_config c Hplain).
  now apply (replay_ordered c []).
Qed.

Lemma config_round_trip_witness :
  let c := ConfigManager.setConfig "last_run" "successful"
             (ConfigManager.setConfig "mode" "a=b" []) in
  ConfigManager.loadConfig (ConfigManager.saveConfig c) [] = c.
Proof.
  intros c. apply (config_round_trip c).
  - unfold c, ConfigManager.setConfig.
    apply assign_keeps_order, assign_keeps_order. constructor.
  - repeat (constructor; [repeat split; discriminate |]). constructor.
Defined.

(** X14: an entry whose value is the empty string is lost by saving and
    loading: the line [key=] that [saveConfig] writes for it is skipped by
    [loadConfig], which goes on with the rest of the file and assigns
    nothing for that key. *)
Theorem config_empty_value_is_dropped
    (k rest : string) (c : ConfigManager.config) :
  plain_name k ->
  ConfigManager.loadConfig (ConfigManager.saveConfig [(k, "")] ++ rest) c =
  ConfigManager.loadConfig rest c.
Proof.
  intros [Heq Hnl].
  change ((ConfigManager.saveConfig [(k, "")] ++ rest)%string)
    with (((k ++ String "="%char (String newline "")) ++ rest)%string).
  replace (((k ++ String "="%char (String newline "")) ++ rest)%string)
    with (((k ++ String "="%char "") ++ String newline rest)%string)
    by (now rewrite !append_assoc).
  rewrite loadConfig_line by (rewrite occurs_append, Hnl; reflexivity).
  now rewrite (process_config_line_pair k "" c Heq eq_refl).
Qed.

Lemma config_empty_value_is_dropped_witness :
  ConfigManager.loadConfig
    (ConfigManager.saveConfig [("gpu", "")] ++ "mode=fast" ++ nl) []
  = ConfigManager.loadConfig ("mode=fast" ++ nl) [].
Proof.
  apply (config_empty_value_is_dropped "gpu" ("mode=fast" ++ nl)%string []).
  split; reflexivity.
Defined.

(** ** Console input *)

Lemma extract_digits_value (s : string) :
  forall (acc : Z) (seen : bool),
    fst (UserInput.extract_digits s acc seen) = read_digits s acc seen.
Proof.
  induction s as [| c s IH]; intros acc seen; simpl; [reflexivity |].
  destruct (digit_of c); [apply IH | reflexivity].
Qed.

(** The reader of the console agrees with the reader of the settings
    file on the value read. *)
Lemma extract_int_value (s : string) :
  fst (UserInput.extract_int s) = read_int s.
Proof.
  unfold UserInput.extract_int, read_int.
  destruct (match skip_ws s with
            | String "-"%char r => (true, r)
            | String "+"%char r => (false, r)
            | _ => (false, skip_ws s)
            end) as [neg s2].
  rewrite <- (extract_digits_value s2 0 false).
  destruct (UserInput.extract_digits s2 0 false) as [r rest]. reflexivity.
Qed.

Lemma extract_digits_stop (trail : string) (acc : Z) (seen : bool) :
  starts_with_digit trail = false ->
  snd (UserInput.extract_digits trail acc seen) = trail.
Proof.
  destruct trail as [| c trail]; simpl; [reflexivity |].
  destruct (digit_of c); [discriminate | reflexivity].
Qed.

Lemma extract_digits_rest_uint (u : uint) :
  forall (trail : string) (acc : Z) (seen : bool),
    starts_with_digit trail = false ->
    snd (UserInput.extract_digits (NilEmpty.string_of_uint u ++ trail) acc seen)
    = trail.
Proof.
  induction u; intros trail acc seen Htrail;
    cbn [NilEmpty.string_of_uint append UserInput.extract_digits];
    try (eval_digit; now apply IHu).
  now apply extract_digits_stop.
Qed.

Lemma extract_digits_rest_show (m : Z) (trail : string) (acc : Z) (seen : bool) :
  0 <= m ->
  starts_with_digit trail = false ->
  snd (UserInput.extract_digits (show_int m ++ trail) acc seen) = trail.
Proof.
  intros Hm Htrail. destruct m as [| p | p]; [| | lia].
  - change ((show_int 0 ++ trail)%string) with (String "0"%char trail).
    cbn [UserInput.extract_digits]. eval_digit. now apply extract_digits_stop.
  - rewrite show_int_pos. now apply extract_digits_rest_uint.
Qed.

Lemma extract_digits_rest_padded
    (k : nat) (m : Z) (trail : string) (acc : Z) (seen : bool) :
  0 <= m ->
  starts_with_digit trail = false ->
  snd (UserInput.extract_digits (zeros k ++ show_int m ++ trail) acc seen) = trail.
Proof.
  intros Hm Htrail. revert acc seen.
  induction k as [| k IH]; intros acc seen; cbn [zeros append].
  - now apply extract_digits_rest_show.
  - cbn [UserInput.extract_digits]. eval_digit. apply IH.
Qed.

Lemma extract_int_rest_unsigned (body : string) :
  starts_with_digit body = true ->
  snd (UserInput.extract_int body) = snd (UserInput.extract_digits body 0 false).
Proof.
  destruct body as [| c body]; [discriminate |].
  cbn [starts_with_digit].
  destruct (digit_of c) as [d |] eqn:Hc; [intros _ | discriminate].
  destruct (digit_is_no_space_no_sign c d Hc) as (Hsp & Hminus & Hplus).
  unfold UserInput.extract_int. cbn [skip_ws]. rewrite Hsp.
  destruct c as [[|] [|] [|] [|] [|] [|] [|] [|]];
    try (destruct (UserInput.extract_digits _ 0 false); reflexivity);
    congruence.
Qed.

Lemma extract_int_rest_signed (c : ascii) (body : string) :
  c = "+"%char \/ c = "-"%char ->
  snd (UserInput.extract_int (String c body))
  = snd (UserInput.extract_digits body 0 false).
Proof.
  intros [-> | ->]; unfold UserInput.extract_int; cbn [skip_ws].
  - change (is_space "+"%char) with false. cbv iota beta.
    destruct (UserInput.extract_digits body 0 false); reflexivity.
  - change (is_space "-"%char) with false. cbv iota beta.
    destruct (UserInput.extract_digits body 0 false); reflexivity.
Qed.

(** What [std::cin >> value] does on a decimal numeral: the value, when
    it fits in an [int], and the input right after the last digit. *)
Lemma extract_int_numeral
    (ws : string) (sg : sign) (k : nat) (m : Z) (trail : string) :
  all_space ws = true ->
  0 <= m ->
  starts_with_digit trail = false ->
  UserInput.extract_int (ws ++ sign_text sg ++ zeros k ++ show_int m ++ trail) =
  (if Int.in_range (signed sg m) then Some (signed sg m) else None, trail).
Proof.
  intros Hws Hm Htrail.
  apply injective_projections; cbn [fst snd].
  - rewrite extract_int_value. now apply read_int_numeral_any.
  - assert (Hskip : forall s, UserInput.extract_int (ws ++ s) = UserInput.extract_int s)
      by (intros s; unfold UserInput.extract_int; now rewrite skip_ws_spaces).
    rewrite Hskip. destruct sg; cbn [sign_text].
    + cbn [append]. rewrite extract_int_rest_unsigned by now apply padded_head.
      now apply extract_digits_rest_padded.
    + change (("+" ++ zeros k ++ show_int m ++ trail)%string)
        with (String "+"%char (zeros k ++ show_int m ++ trail)).
      rewrite extract_int_rest_signed by now left.
      now apply extract_digits_rest_padded.
    + change (("-" ++ zeros k ++ show_int m ++ trail)%string)
        with (String "-"%char (zeros k ++ show_int m ++ trail)).
      rewrite extract_int_rest_signed by now right.
      now apply extract_digits_rest_padded.
Qed.

Lemma extract_int_on_spaces (s : string) :
  all_space s = true -> UserInput.extract_int s = (None, EmptyString).
Proof.
  intros Hs. unfold UserInput.extract_int.
  replace (skip_ws s) with EmptyString; [reflexivity |].
  symmetry. induction s as [| c s IH]; simpl in *; [reflexivity |].
  apply andb_true_iff in Hs. destruct Hs as [Hc Hs]. rewrite Hc. now apply IH.
Qed.

Lemma read_int_in_range (s : string) (v : Z) :
  read_int s = Some v -> Int.in_range v = true.
Proof.
  unfold read_int.
  destruct (match skip_ws s with
            | String "-"%char r => (true, r)
            | String "+"%char r => (false, r)
            | _ => (false, skip_ws s)
            end) as [neg s2].
  destruct (read_digits s2 0 false) as [n |]; [| discriminate].
  destruct (Int.in_range (if neg then - n else n)) eqn:Hr; [| discriminate].
  now intros [= <-].
Qed.

Lemma getIntInput_step (fuel : nat) (lo hi : Z) (stdin : string) :
  UserInput.getIntInput (S fuel) lo hi stdin =
  match UserInput.extract_int stdin with
  | (Some v, rest) =>
      if (v <? lo) || (hi <? v)
      then UserInput.getIntInput fuel lo hi (UserInput.ignore_line rest)
      else Some (v, rest)
  | (None, rest) => UserInput.getIntInput fuel lo hi (UserInput.ignore_line rest)
  end.
Proof. reflexivity. Qed.

Lemma getIntInput_at_end (fuel : nat) (lo hi : Z) :
  forall stdin : string,
    all_space stdin = true -> UserInput.getIntInput fuel lo hi stdin = None.
Proof.
  induction fuel as [| fuel IH]; intros stdin Hs; [reflexivity |].
  rewrite getIntInput_step, (extract_int_on_spaces stdin Hs).
  now apply IH.
Qed.

Lemma getIntInput_more_fuel (fuel : nat) (lo hi : Z) :
  forall (stdin : string) (r : Z * string) (fuel' : nat),
    UserInput.getIntInput fuel lo hi stdin = Some r ->
    (fuel <= fuel')%nat ->
    UserInput.getIntInput fuel' lo hi stdin = Some r.
Proof.
  induction fuel as [| fuel IH]; intros stdin r fuel' Hrun Hle; [discriminate |].
  destruct fuel' as [| fuel']; [lia |].
  rewrite getIntInput_step in *.
  destruct (UserInput.extract_int stdin) as [[v |] rest].
  - destruct ((v <? lo) || (hi <? v)); [| exact Hrun].
    apply (IH _ _ _ Hrun). lia.
  - apply (IH _ _ _ Hrun). lia.
Qed.

Lemma getIntInput_numeral
    (fuel : nat) (lo hi : Z) (ws : string) (sg : sign) (k : nat) (m : Z)
    (trail : string) :
  all_space ws = true ->
  0 <= m ->
  Int.in_range (signed sg m) = true ->
  lo <= signed sg m <= hi ->
  starts_with_digit trail = false ->
  UserInput.getIntInput (S fuel) lo hi
    (ws ++ sign_text sg ++ zeros k ++ show_int m ++ trail)
  = Some (signed sg m, trail).
Proof.
  intros Hws Hm Hrange Hv Htrail.
  rewrite getIntInput_step, (extract_int_numeral ws sg k m trail Hws Hm Htrail).
  rewrite Hrange.
  destruct (Z.ltb_spec (signed sg m) lo); [lia |].
  destruct (Z.ltb_spec hi (signed sg m)); [lia |].
  reflexivity.
Qed.

(** X15: when the input starts, after optional white space, with a
    decimal numeral (optional sign, any leading zeros) whose value is an
    [int] between [min] and [max], [getIntInput] returns that value at its
    first turn and leaves the input right after the last digit. *)
Theorem get_int_accepts
    (fuel : nat) (lo hi : Z) (ws : string) (sg : sign) (k : nat) (m : Z)
    (trail : string) :
  all_space ws = true ->
  0 <= m ->
  Int.in_range (signed sg m) = true ->
  lo <= signed sg m <= hi ->
  starts_with_digit trail = false ->
  UserInput.getIntInput (S fuel) lo hi
    (ws ++ sign_text sg ++ zeros k ++ show_int m ++ trail)
  = Some (signed sg m, trail).
Proof.
  intros Hws Hm Hrange Hv Htrail. now apply getIntInput_numeral.
Qed.

Lemma get_int_accepts_witness :
  UserInput.getIntInput 1 30 100 (nl ++ "+" ++ zeros 1 ++ show_int 75 ++ " fps" ++ nl)
  = Some (75, (" fps" ++ nl)%string).
Proof.
  apply (get_int_accepts 0 30 100 nl Plus 1 75 (" fps" ++ nl)%string);
    try reflexivity; simpl; lia.
Defined.

(** X16: a value returned by [getIntInput] is an [int] between [min] and
    [max], and it is returned whatever further turns the loop would have
    been allowed: once the loop has returned, more fuel changes nothing. *)
Theorem get_int_result_in_range
    (fuel : nat) (lo hi : Z) (stdin : string) (v : Z) (rest : string) :
  UserInput.getIntInput fuel lo hi stdin = Some (v, rest) ->
  lo <= v <= hi /\ Int.in_range v = true /\
  forall fuel' : nat,
    (fuel <= fuel')%nat ->
    UserInput.getIntInput fuel' lo hi stdin = Some (v, rest).
Proof.
  intros Hrun. split; [| split].
  - revert stdin Hrun. induction fuel as [| fuel IH]; intros stdin Hrun;
      [discriminate |].
    rewrite getIntInput_step in Hrun.
    destruct (UserInput.extract_int stdin) as [[x |] r]; [| now apply (IH _ Hrun)].
    destruct (Z.ltb_spec x lo); simpl in Hrun; [now apply (IH _ Hrun) |].
    destruct (Z.ltb_spec hi x); [now apply (IH _ Hrun) |].
    injection Hrun as -> _. lia.
  - revert stdin Hrun. induction fuel as [| fuel IH]; intros stdin Hrun;
      [discriminate |].
    rewrite getIntInput_step in Hrun.
    pose proof (extract_int_value stdin) as Hval.
    destruct (UserInput.extract_int stdin) as [[x |] r]; [| now apply (IH _ Hrun)].
    destruct ((x <? lo) || (hi <? x)); [now apply (IH _ Hrun) |].
    injection Hrun as -> _. simpl in Hval.
    now apply (read_int_in_range stdin).
  - intros fuel' Hle. now apply (getIntInput_more_fuel fuel lo hi stdin).
Qed.

Lemma get_int_result_in_range_witness :
  1 <= 5 <= 7 /\ Int.in_range 5 = true /\
  forall fuel' : nat,
    (3 <= fuel')%nat ->
    UserInput.getIntInput fuel' 1 7 ("9" ++ nl ++ "x" ++ nl ++ "5" ++ nl)
    = Some (5, nl).
Proof.
  apply (get_int_result_in_range 3 1 7 ("9" ++ nl ++ "x" ++ nl ++ "5" ++ nl)%string
           5 nl).
  reflexivity.
Defined.

(** X17: an entry that is a decimal numeral outside [min..max], or too
    large for an [int], is rejected together with everything that follows
    it on its line: the next turn starts at the beginning of the next
    line. *)
Theorem get_int_discards_rejected_line
    (fuel : nat) (lo hi : Z) (ws : string) (sg : sign) (k : nat) (m : Z)
    (trail more : string) :
  all_space ws = true ->
  0 <= m ->
  starts_with_digit trail = false ->
  occurs newline trail = false ->
  Int.in_range (signed sg m) = false \/ signed sg m < lo \/ hi < signed sg m ->
  UserInput.getIntInput (S fuel) lo hi
    (ws ++ sign_text sg ++ zeros k ++ show_int m ++ trail ++ nl ++ more)
  = UserInput.getIntInput fuel lo hi more.
Proof.
  intros Hws Hm Htrail Hnl Hbad.
  change ((trail ++ nl ++ more)%string) with ((trail ++ String newline more)%string).
  assert (Htrail' : starts_with_digit (trail ++ String newline more) = false)
    by (destruct trail; [reflexivity | exact Htrail]).
  rewrite getIntInput_step, (extract_int_numeral ws sg k m _ Hws Hm Htrail').
  assert (Hignore : UserInput.ignore_line (trail ++ String newline more) = more)
    by (unfold UserInput.ignore_line; now rewrite split_at_found).
  rewrite Hignore.
  destruct (Int.in_range (signed sg m)); [| reflexivity].
  destruct (Z.ltb_spec (signed sg m) lo); [reflexivity |].
  destruct (Z.ltb_spec hi (signed sg m)); [reflexivity |].
  destruct Hbad as [Hbad | Hbad]; [discriminate | lia].
Qed.

Lemma get_int_discards_rejected_line_witness :
  UserInput.getIntInput 2 1 7
    ("" ++ sign_text NoSign ++ zeros 0 ++ show_int 9 ++ " 3" ++ nl ++ "4" ++ nl)
  = UserInput.getIntInput 1 1 7 ("4" ++ nl).
Proof.
  apply (get_int_discards_rejected_line 1 1 7 "" NoSign 0 9 " 3" ("4" ++ nl)%string);
    try reflexivity; [lia | right; right; simpl; lia].
Defined.

Lemma skip_ws_length (s : string) :
  (String.length (skip_ws s) <= String.length s)%nat.
Proof.
  induction s as [| c s IH]; simpl; [lia |].
  destruct (is_space c); simpl; lia.
Qed.

Lemma extract_digits_length (s : string) :
  forall (acc : Z) (seen : bool),
    (String.length (snd (UserInput.extract_digits s acc seen)) <= String.length s)%nat.
Proof.
  induction s as [| c s IH]; intros acc seen;
    cbn [UserInput.extract_digits String.length]; [simpl; lia |].
  destruct (digit_of c) as [d |]; [| simpl; lia].
  specialize (IH (10 * acc + d) true). lia.
Qed.

Lemma extract_int_length (s : string) :
  (String.length (snd (UserInput.extract_int s)) <= String.length s)%nat.
Proof.
  unfold UserInput.extract_int.
  pose proof (skip_ws_length s) as Hskip.
  assert (Hsign : forall (neg : bool) (s2 : string),
             match skip_ws s with
             | String "-"%char r => (true, r)
             | String "+"%char r => (false, r)
             | _ => (false, skip_ws s)
             end = (neg, s2) ->
             (String.length s2 <= String.length (skip_ws s))%nat).
  { intros neg s2. destruct (skip_ws s) as [| c r]; [intros [= _ <-]; lia |].
    destruct c as [[|] [|] [|] [|] [|] [|] [|] [|]];
      intros [= _ <-]; simpl; lia. }
  destruct (match skip_ws s with
            | String "-"%char r => (true, r)
            | String "+"%char r => (false, r)
            | _ => (false, skip_ws s)
            end) as [neg s2].
  specialize (Hsign neg s2 eq_refl).
  pose proof (extract_digits_length s2 0 false) as Hdig.
  destruct (UserInput.extract_digits s2 0 false) as [r rest]. simpl in *. lia.
Qed.

Lemma ignore_line_length (s : string) :
  s <> EmptyString ->
  (String.length (UserInput.ignore_line s) < String.length s)%nat.
Proof.
  intros Hs. destruct s as [| c s]; [congruence |].
  unfold UserInput.ignore_line.
  destruct (split_at newline (String c s)) as [l r] eqn:Hsplit.
  apply (getline_rest_shorter newline (String c s) l r).
  unfold getline. now rewrite Hsplit.
Qed.

Lemma getIntInput_fuel_enough (fuel : nat) (lo hi : Z) :
  forall stdin : string,
    (String.length stdin < fuel)%nat ->
    UserInput.getIntInput fuel lo hi stdin = None ->
    forall fuel' : nat, UserInput.getIntInput fuel' lo hi stdin = None.
Proof.
  induction fuel as [| fuel IH]; intros stdin Hlen Hrun fuel'; [lia |].
  destruct fuel' as [| fuel']; [reflexivity |].
  rewrite getIntInput_step in *.
  pose proof (extract_int_length stdin) as Hrest.
  destruct (UserInput.extract_int stdin) as [r rest]. simpl in Hrest.
  assert (Hnext : UserInput.getIntInput fuel lo hi (UserInput.ignore_line rest) = None ->
                  UserInput.getIntInput fuel' lo hi (UserInput.ignore_line rest) = None).
  { intros Hn. destruct rest as [| c rest'].
    - now apply getIntInput_at_end.
    - pose proof (ignore_line_length (String c rest') ltac:(discriminate)) as Hshort.
      apply (IH (UserInput.ignore_line (String c rest'))); [lia | exact Hn]. }
  destruct r as [v |]; [| now apply Hnext].
  destruct ((v <? lo) || (hi <? v)); [now apply Hnext | discriminate].
Qed.

(** X18: [getIntInput] has no way out at the end of the input: when only
    white space is left it never returns, however many turns it is given;
    and on any input, if it has not returned after one more turn than the
    input has characters, it never returns. *)
Theorem get_int_never_returns_at_end (lo hi : Z) (stdin : string) :
  (all_space stdin = true ->
   forall fuel : nat, UserInput.getIntInput fuel lo hi stdin = None) /\
  (UserInput.getIntInput (S (String.length stdin)) lo hi stdin = None ->
   forall fuel : nat, UserInput.getIntInput fuel lo hi stdin = None).
Proof.
  split.
  - intros Hs fuel. now apply getIntInput_at_end.
  - apply getIntInput_fuel_enough. lia.
Qed.

Lemma get_int_never_returns_at_end_witness :
  UserInput.getIntInput 1000 1 7 ("  " ++ nl) = None /\
  UserInput.getIntInput 1000 1 7 ("8" ++ nl ++ "0") = None.
Proof.
  split.
  - apply (proj1 (get_int_never_returns_at_end 1 7 ("  " ++ nl)%string)).
    reflexivity.
  - apply (proj2 (get_int_never_returns_at_end 1 7 ("8" ++ nl ++ "0")%string)).
    reflexivity.
Defined.

(** ** The menu *)

Lemma read_number_line (lo hi : Z) (ws : string) (v : Z) (rest : string) :
  all_space ws = true ->
  0 <= v ->
  Int.in_range v = true ->
  lo <= v <= hi ->
  InteractiveMenu.read_number lo hi (ws ++ show_int v ++ String newline rest)
  = Some (v, String newline rest).
Proof.
  intros Hws Hv Hrange Hbounds. unfold InteractiveMenu.read_number.
  exact (getIntInput_numeral _ lo hi ws NoSign 0 v (String newline rest)
           Hws Hv Hrange Hbounds eq_refl).
Qed.

Lemma getStringInput_next_line (c : ascii) (line rest : string) :
  occurs newline line = false ->
  UserInput.getStringInput (String c (line ++ String newline rest)) = (line, rest).
Proof. intros Hline. unfold UserInput.getStringInput. now apply split_at_found. Qed.

Lemma typed_optimize_shape (t : Z) (x : string) :
  (typed (Optimize t) ++ x)%string
  = (show_int 2 ++ String newline (show_int t ++ String newline x))%string.
Proof.
  unfold typed.
  change (("2" ++ nl ++ show_int t ++ nl)%string)
    with (String "2"%char (String newline (show_int t ++ nl))).
  cbn [append]. now rewrite append_assoc.
Qed.

Lemma typed_tweak_shape (n x : string) :
  (typed (Tweak n) ++ x)%string
  = (show_int 3 ++ String newline (n ++ String newline x))%string.
Proof.
  unfold typed.
  change (("3" ++ nl ++ n ++ nl)%string)
    with (String "3"%char (String newline (n ++ nl))).
  cbn [append]. now rewrite append_assoc.
Qed.

Lemma script_length (cs : list command) :
  (List.length cs <= String.length (script cs))%nat.
Proof.
  induction cs as [| c cs IH]; simpl; [lia |].
  rewrite append_length.
  assert (1 <= String.length (typed c))%nat by (destruct c; simpl; lia).
  lia.
Qed.

Lemma menu_runs_script (writable : bool) (cs : list command) :
  forall (fuel : nat) (ws : string) (reg : registry) (disk : option string)
         (more : string),
    (List.length cs < fuel)%nat ->
    all_space ws = true ->
    Forall well_typed cs ->
    InteractiveMenu.displayMenu fuel writable
      (InteractiveMenu.mkSession reg (ws ++ script cs ++ more) disk)
    = Some (InteractiveMenu.mkSession
              (fst (fold_left (effect writable) cs (reg, disk)))
              (String newline more)
              (snd (fold_left (effect writable) cs (reg, disk)))).
Proof.
  induction cs as [| c cs IH]; intros fuel ws reg disk more Hfuel Hws Hcs;
    (destruct fuel as [| fuel]; [simpl in Hfuel; lia |]);
    cbn [InteractiveMenu.displayMenu InteractiveMenu.stdin
         InteractiveMenu.optimizer InteractiveMenu.disk].
  - change ((ws ++ script [] ++ more)%string)
      with ((ws ++ show_int 7 ++ String newline more)%string).
    rewrite read_number_line by (try assumption; try reflexivity; lia).
    reflexivity.
  - inversion Hcs as [| ? ? Hc Hcs']; subst.
    assert (Hfuel' : (List.length cs < fuel)%nat) by (simpl in Hfuel; lia).
    cbn [script fold_left]. rewrite (append_assoc (typed c)).
    set (x := (script cs ++ more)%string).
    destruct c; cbn [effect fst snd well_typed] in *.
    + change ((typed View ++ x)%string) with ((show_int 1 ++ String newline x)%string).
      rewrite read_number_line by (try assumption; try reflexivity; lia).
      exact (IH fuel nl reg disk more Hfuel' eq_refl Hcs').
    + rewrite typed_optimize_shape.
      rewrite read_number_line by (try assumption; try reflexivity; lia).
      cbv iota beta.
      change (String newline (show_int targetPerformance ++ String newline x))
        with ((nl ++ show_int targetPerformance ++ String newline x)%string).
      rewrite read_number_line;
        [| reflexivity | lia
         | apply in_range_iff; unfold Int.INT_MIN, Int.INT_MAX; lia | exact Hc].
      exact (IH fuel nl _ disk more Hfuel' eq_refl Hcs').
    + rewrite typed_tweak_shape.
      rewrite read_number_line by (try assumption; try reflexivity; lia).
      cbv iota beta.
      rewrite (getStringInput_next_line newline tweakName x Hc).
      exact (IH fuel EmptyString reg disk more Hfuel' eq_refl Hcs').
    + change ((typed Analyze ++ x)%string) with ((show_int 4 ++ String newline x)%string).
      rewrite read_number_line by (try assumption; try reflexivity; lia).
      exact (IH fuel nl reg disk more Hfuel' eq_refl Hcs').
    + change ((typed Save ++ x)%string) with ((show_int 5 ++ String newline x)%string).
      rewrite read_number_line by (try assumption; try reflexivity; lia).
      exact (IH fuel nl reg _ more Hfuel' eq_refl Hcs').
    + change ((typed Load ++ x)%string) with ((show_int 6 ++ String newline x)%string).
      rewrite read_number_line by (try assumption; try reflexivity; lia).
      exact (IH fuel nl _ disk more Hfuel' eq_refl Hcs').
Qed.

(** X19: a session typed at the keyboard as a list of commands, each
    answer within what the menu accepts, followed by option 7, makes
    [displayMenu] return; the registry and the settings file it leaves are
    those obtained by applying the commands in order (option 2
    [optimizeSettings] with the typed target, option 5 [saveSettings] when
    the file can be written, option 6 [loadSettings] when it can be read,
    options 1, 3 and 4 nothing), and what was typed after option 7 is left
    unread. *)
Theorem menu_follows_script
    (writable : bool) (cs : list command) (reg : registry)
    (disk : option string) (more : string) :
  Forall well_typed cs ->
  InteractiveMenu.displayMenu (S (String.length (script cs ++ more))) writable
    (InteractiveMenu.mkSession reg (script cs ++ more) disk)
  = Some (InteractiveMenu.mkSession
            (fst (fold_left (effect writable) cs (reg, disk)))
            (String newline more)
            (snd (fold_left (effect writable) cs (reg, disk)))).
Proof.
  intros Hcs.
  apply (menu_runs_script writable cs _ EmptyString reg disk more);
    [| reflexivity | exact Hcs].
  pose proof (script_length cs). rewrite append_length. lia.
Qed.

Lemma menu_follows_script_witness :
  let cs := [View; Optimize 70; Save; Tweak "Boost FPS"; Load] in
  InteractiveMenu.displayMenu (S (String.length (script cs ++ "quit"))) true
    (InteractiveMenu.mkSession BasicProgram.default_settings (script cs ++ "quit") None)
  = Some (InteractiveMenu.mkSession
            (optimizeSettings 70 BasicProgram.default_settings)
            (String newline "quit")
            (Some (saveSettings (optimizeSettings 70 BasicProgram.default_settings)))).
Proof.
  intros cs.
  apply (menu_follows_script true cs BasicProgram.default_settings None "quit").
  unfold cs. repeat (constructor; [simpl; try lia; try reflexivity; exact I |]).
  constructor.
Defined.

(** The registry keeps its definitions and its bounds invariant, and the
    settings file is either untouched or a save of a registry with the
    same definitions. *)
Lemma menu_invariant (writable : bool) (fuel : nat) :
  forall s s' : InteractiveMenu.session,
    InteractiveMenu.displayMenu fuel writable s = Some s' ->
    map definition_of (InteractiveMenu.optimizer s')
    = map definition_of (InteractiveMenu.optimizer s) /\
    (Forall in_bounds (InteractiveMenu.optimizer s) ->
     Forall in_bounds (InteractiveMenu.optimizer s')) /\
    (InteractiveMenu.disk s' = InteractiveMenu.disk s \/
     exists r : registry,
       map definition_of r = map definition_of (InteractiveMenu.optimizer s) /\
       InteractiveMenu.disk s' = Some (saveSettings r)).
Proof.
  induction fuel as [| fuel IH]; intros s s' Hrun; [discriminate |].
  cbn [InteractiveMenu.displayMenu] in Hrun.
  destruct (InteractiveMenu.read_number 1 7 (InteractiveMenu.stdin s))
    as [[choice rest] |]; [| discriminate].
  assert (Hsame : forall input,
             InteractiveMenu.displayMenu fuel writable
               (InteractiveMenu.mkSession (InteractiveMenu.optimizer s) input
                  (InteractiveMenu.disk s)) = Some s' ->
             map definition_of (InteractiveMenu.optimizer s')
             = map definition_of (InteractiveMenu.optimizer s) /\
             (Forall in_bounds (InteractiveMenu.optimizer s) ->
              Forall in_bounds (InteractiveMenu.optimizer s')) /\
             (InteractiveMenu.disk s' = InteractiveMenu.disk s \/
              exists r : registry,
                map definition_of r = map definition_of (InteractiveMenu.optimizer s) /\
                InteractiveMenu.disk s' = Some (saveSettings r)))
    by (intros input H; exact (IH _ _ H)).
  destruct choice as [| p | p]; [now apply (Hsame rest) | | now apply (Hsame rest)].
  destruct p as [[[q | q |] | [q | q |] |] | [[q | q |] | [q | q |] |] |];
    try (now apply (Hsame rest)).
  - (* 7 *)
    injection Hrun as <-. simpl. auto.
  - (* 5 *)
    apply IH in Hrun. cbn [InteractiveMenu.optimizer InteractiveMenu.disk] in Hrun.
    destruct Hrun as (Hd & Hb & Hk). split; [exact Hd |]. split; [exact Hb |].
    destruct Hk as [Hk | Hk]; [| right; exact Hk].
    destruct writable; [| left; exact Hk].
    right. exists (InteractiveMenu.optimizer s). split; [reflexivity | exact Hk].
  - (* 3 *)
    destruct (UserInput.getStringInput rest) as [tweakName rest'].
    now apply (Hsame rest').
  - (* 6 *)
    apply IH in Hrun. cbn [InteractiveMenu.optimizer InteractiveMenu.disk] in Hrun.
    destruct Hrun as (Hd & Hb & Hk).
    assert (Hdefs : map definition_of
                      match InteractiveMenu.disk s with
                      | Some text => loadSettings text (InteractiveMenu.optimizer s)
                      | None => InteractiveMenu.optimizer s
                      end
                    = map definition_of (InteractiveMenu.optimizer s))
      by (destruct (InteractiveMenu.disk s); [apply load_keeps_definitions | reflexivity]).
    split; [now rewrite Hd |]. split.
    + intros Hin. apply Hb.
      destruct (InteractiveMenu.disk s); [| exact Hin].
      apply load_invariant; [| exact Hin].
      intros n v r. apply update_keeps_bounds.
    + destruct Hk as [Hk | (r & Hr & Hk)]; [left; exact Hk |].
      right. exists r. split; [now rewrite Hr | exact Hk].
  - (* 2 *)
    destruct (InteractiveMenu.read_number 30 100 rest) as [[t rest'] |];
      [| discriminate].
    apply IH in Hrun. cbn [InteractiveMenu.optimizer InteractiveMenu.disk] in Hrun.
    destruct Hrun as (Hd & Hb & Hk).
    pose proof (optimize_keeps_definitions t (InteractiveMenu.optimizer s)) as Hdefs.
    split; [now rewrite Hd |]. split.
    + intros Hin. now apply Hb, optimize_keeps_bounds.
    + destruct Hk as [Hk | (r & Hr & Hk)]; [left; exact Hk |].
      right. exists r. split; [now rewrite Hr | exact Hk].
Qed.

(** X20: whatever is typed, when [displayMenu] returns the registry has
    the names, bounds, number and order of Settings it had at the start;
    if every Setting was within its bounds at the start, every Setting is
    within its bounds at the end; and [settings.txt] is either as it was
    or holds a save of a registry with those same definitions. *)
Theorem menu_keeps_registry_shape
    (writable : bool) (fuel : nat) (s s' : InteractiveMenu.session) :
  InteractiveMenu.displayMenu fuel writable s = Some s' ->
  map definition_of (InteractiveMenu.optimizer s')
  = map definition_of (InteractiveMenu.optimizer s) /\
  (Forall in_bounds (InteractiveMenu.optimizer s) ->
   Forall in_bounds (InteractiveMenu.optimizer s')) /\
  (InteractiveMenu.disk s' = InteractiveMenu.disk s \/
   exists r : registry,
     map definition_of r = map definition_of (InteractiveMenu.optimizer s) /\
     InteractiveMenu.disk s' = Some (saveSettings r)).
Proof. apply menu_invariant. Qed.

Lemma menu_keeps_registry_shape_witness :
  let s := InteractiveMenu.mkSession BasicProgram.default_settings
             ("9" ++ nl ++ "2" ++ nl ++ "abc" ++ nl ++ "45" ++ nl ++ "5" ++ nl
                ++ "7" ++ nl)
             None in
  let s' := InteractiveMenu.mkSession
              (optimizeSettings 45 BasicProgram.default_settings) nl
              (Some (saveSettings (optimizeSettings 45 BasicProgram.default_settings))) in
  map definition_of (InteractiveMenu.optimizer s')
  = map definition_of (InteractiveMenu.optimizer s).
Proof.
  intros s s'.
  apply (proj1 (menu_keeps_registry_shape true 4 s s' eq_refl)).
Defined.

(** ** What [loadConfig] produces can always be saved and reloaded *)

Lemma split_at_fst_clean (d : ascii) (s : string) :
  occurs d (fst (split_at d s)) = false.
Proof.
  induction s as [| c s IH]; simpl; [reflexivity |].
  destruct (Ascii.eqb c d) eqn:Hc; simpl; [reflexivity |].
  destruct (split_at d s) as [l r]; simpl in *. now rewrite Hc, IH.
Qed.

Lemma each_line_invariant_on_lines {A : Type} (body : string -> A -> A)
    (P : A -> Prop) :
  (forall line acc, occurs newline line = false -> P acc -> P (body line acc)) ->
  forall (fuel : nat) (file : string) (acc : A),
    P acc -> P (each_line body fuel file acc).
Proof.
  intros Hbody. induction fuel as [| fuel IH]; intros file acc Hacc; simpl.
  - exact Hacc.
  - destruct file as [| c file]; [exact Hacc |]. unfold getline.
    pose proof (split_at_fst_clean newline (String c file)) as Hline.
    destruct (split_at newline (String c file)) as [line rest]; simpl in Hline.
    apply IH, Hbody; assumption.
Qed.

Lemma assign_keeps_entries {V : Type} (P : string * V -> Prop)
    (k : string) (v : V) (m : StdMap.t) :
  P (k, v) -> Forall P m -> Forall P (StdMap.assign k v m).
Proof.
  intros Hkv. induction 1 as [| [k0 v0] m H0 Hm IH]; simpl.
  - constructor; [exact Hkv | constructor].
  - destruct (String.compare k k0); repeat constructor; assumption.
Qed.

Lemma process_config_line_storable (line : string) (c : ConfigManager.config) :
  occurs newline line = false ->
  ordered c /\
  Forall (fun e => plain_name (fst e) /\ snd e <> EmptyString /\
                   occurs newline (snd e) = false) c ->
  ordered (ConfigManager.process_config_line line c) /\
  Forall (fun e => plain_name (fst e) /\ snd e <> EmptyString /\
                   occurs newline (snd e) = false)
         (ConfigManager.process_config_line line c).
Proof.
  intros Hline [Hord Hall]. unfold ConfigManager.process_config_line, getline.
  destruct line as [| x line]; [now split |].
  pose proof (split_at_fst_clean "="%char (String x line)) as Hkey.
  destruct (split_at_keeps_absence newline "="%char (String x line) Hline)
    as [Hknl Hrnl].
  destruct (split_at "="%char (String x line)) as [key rest]; simpl in Hkey, Hknl, Hrnl.
  destruct rest as [| y rest]; [now split |].
  rewrite (split_at_missing newline _ Hrnl).
  split; [now apply assign_keeps_order |].
  apply assign_keeps_entries; [| exact Hall].
  simpl. repeat split; try assumption. discriminate.
Qed.

Lemma loaded_config_storable (file : string) (c : ConfigManager.config) :
  ordered c /\
  Forall (fun e => plain_name (fst e) /\ snd e <> EmptyString /\
                   occurs newline (snd e) = false) c ->
  ordered (ConfigManager.loadConfig file c) /\
  Forall (fun e => plain_name (fst e) /\ snd e <> EmptyString /\
                   occurs newline (snd e) = false)
         (ConfigManager.loadConfig file c).
Proof.
  unfold ConfigManager.loadConfig.
  apply (each_line_invariant_on_lines ConfigManager.process_config_line
           (fun m => ordered m /\
                     Forall (fun e => plain_name (fst e) /\ snd e <> EmptyString /\
                                      occurs newline (snd e) = false) m)).
  intros line acc. apply process_config_line_storable.
Qed.

(** X21: whatever a configuration file contains, the configuration that
    [loadConfig] builds from it (starting empty) is one that survives
    saving and loading unchanged, and so does that configuration after the
    program's final [setConfig("last_run", "successful")]: what the
    program writes to [config.txt] reads back as the configuration it
    held. *)
Theorem loaded_config_round_trips (file : string) :
  let c := ConfigManager.loadConfig file [] in
  let c' := ConfigManager.setConfig "last_run" "successful" c in
  ConfigManager.loadConfig (ConfigManager.saveConfig c) [] = c /\
  ConfigManager.loadConfig (ConfigManager.saveConfig c') [] = c'.
Proof.
  intros c c'.
  destruct (loaded_config_storable file []) as [Hord Hall];
    [split; constructor |].
  fold c in Hord, Hall. split.
  - rewrite (load_saved_config c Hall). now apply (replay_ordered c []).
  - assert (Hall' : Forall (fun e => plain_name (fst e) /\ snd e <> EmptyString /\
                                     occurs newline (snd e) = false) c').
    { apply assign_keeps_entries; [| exact Hall].
      repeat split; discriminate. }
    rewrite (load_saved_config c' Hall').
    apply (replay_ordered c' []). now apply assign_keeps_order.
Qed.

(** ** Malformed lines *)

Lemma read_digits_none (s : string) (acc : Z) :
  starts_with_digit s = false -> read_digits s acc false = None.
Proof.
  destruct s as [| c s]; simpl; [reflexivity |].
  destruct (digit_of c); [discriminate | reflexivity].
Qed.

Lemma read_int_lacks_numeral (v : string) :
  lacks_numeral v = true -> read_int v = None.
Proof.
  unfold lacks_numeral, read_int, drop_sign. intros H.
  apply negb_true_iff in H.
  destruct (skip_ws v) as [| c r]; [reflexivity |].
  destruct c as [[|] [|] [|] [|] [|] [|] [|] [|]];
    rewrite (read_digits_none _ 0 H); reflexivity.
Qed.

(** C5: whatever the registry holds, loading the three lines
    [Resolution=1440], [garbageline], [TextureQuality=abc] gives every
    Setting named [Resolution] the value 1440 brought into its bounds and
    leaves every other Setting, [TextureQuality] included, exactly as it
    was.  A malformed line is skipped wherever it stands and loading goes
    on with the lines after it: a line without [=]; a line whose value,
    after white space and an optional sign, does not begin with a digit;
    a line whose value is a number that does not fit in an [int].  The
    loader is a total function: nothing is raised. *)
Theorem malformed_lines_are_skipped :
  (forall reg : registry,
      loadSettings ("Resolution=1440" ++ nl ++ "garbageline" ++ nl
                      ++ "TextureQuality=abc" ++ nl)%string reg =
      map (fun s =>
             if String.eqb (name s) "Resolution"
             then mkSetting (name s)
                    (Z.min (maxValue s) (Z.max (minValue s) 1440))
                    (minValue s) (maxValue s)
             else s)
          reg) /\
  (forall (line rest : string) (reg : registry),
      occurs "="%char line = false ->
      occurs newline line = false ->
      loadSettings (line ++ nl ++ rest) reg = loadSettings rest reg) /\
  (forall (n v rest : string) (reg : registry),
      occurs "="%char n = false ->
      occurs newline (n ++ "=" ++ v) = false ->
      lacks_numeral v = true ->
      loadSettings ((n ++ "=" ++ v) ++ nl ++ rest) reg = loadSettings rest reg) /\
  (forall (n : string) (v : Z) (trail rest : string) (reg : registry),
      occurs "="%char n = false ->
      occurs newline (n ++ "=" ++ show_int v ++ trail) = false ->
      Int.in_range v = false ->
      starts_with_digit trail = false ->
      loadSettings ((n ++ "=" ++ show_int v ++ trail) ++ nl ++ rest) reg =
      loadSettings rest reg).
Proof.
  split; [| split; [| split]].
  - intros reg.
    change (("Resolution=1440" ++ nl ++ "garbageline" ++ nl
               ++ "TextureQuality=abc" ++ nl)%string)
      with (("Resolution=1440" ++ String newline
               ("garbageline" ++ String newline
                  ("TextureQuality=abc" ++ String newline "")))%string).
    rewrite !loadSettings_line by reflexivity.
    rewrite loadSettings_empty.
    change "Resolution=1440" with (("Resolution" ++ String "="%char "1440")%string).
    change "TextureQuality=abc" with (("TextureQuality" ++ String "="%char "abc")%string).
    rewrite !process_line_pair by reflexivity.
    rewrite (process_line_without_separator "garbageline") by reflexivity.
    change (read_int "1440") with (Some 1440).
    change (read_int "abc") with (@None Z).
    unfold updateSetting. apply map_ext. intros s.
    rewrite std_min_is_min, std_max_is_max. reflexivity.
  - intros line rest reg Heq Hnl.
    change ((nl ++ rest)%string) with (String newline rest).
    rewrite (loadSettings_line line rest reg Hnl).
    now rewrite process_line_without_separator.
  - intros n v rest reg Hn Hline Hv.
    change ((nl ++ rest)%string) with (String newline rest).
    rewrite (loadSettings_line _ rest reg Hline).
    change ((n ++ "=" ++ v)%string) with ((n ++ String "="%char v)%string).
    rewrite (process_line_pair _ _ _ Hn).
    now rewrite (read_int_lacks_numeral v Hv).
  - intros n v trail rest reg Hn Hline Hv Htrail.
    change ((nl ++ rest)%string) with (String newline rest).
    rewrite (loadSettings_line _ rest reg Hline).
    change ((n ++ "=" ++ show_int v ++ trail)%string)
      with ((n ++ String "="%char (show_int v ++ trail))%string).
    rewrite (process_line_pair _ _ _ Hn).
    now rewrite (read_int_show_any v trail Htrail), Hv.
Qed.

Lemma malformed_lines_are_skipped_witness :
  let reg := [mkSetting "Resolution" 1080 720 2160;
              mkSetting "TextureQuality" 3 1 5;
              mkSetting "Resolution" 2 1 4] in
  let loaded := [mkSetting "Resolution" 1440 720 2160;
                 mkSetting "TextureQuality" 3 1 5;
                 mkSetting "Resolution" 4 1 4] in
  loadSettings ("Resolution=1440" ++ nl ++ "garbageline" ++ nl
                  ++ "TextureQuality=abc" ++ nl) reg = loaded /\
  loadSettings ("garbageline" ++ nl
                  ++ ("TextureQuality" ++ "=" ++ "abc") ++ nl
                  ++ ("TextureQuality" ++ "=" ++ show_int 4294967296 ++ "") ++ nl
                  ++ "Resolution=1440" ++ nl) reg = loaded.
Proof.
  intros reg loaded.
  destruct malformed_lines_are_skipped as (Hthree & Hnosep & Hnonum & Hbig).
  split.
  - exact (Hthree reg).
  - rewrite (Hnosep "garbageline" _ reg eq_refl eq_refl).
    rewrite (Hnonum "TextureQuality" "abc" _ reg eq_refl eq_refl eq_refl).
    rewrite (Hbig "TextureQuality" 4294967296 "" _ reg eq_refl eq_refl eq_refl eq_refl).
    reflexivity.
Defined.
